(** * Little Lemon booking widget: a shallow embedding of [src/App.js]

    The development follows the source file top to bottom:

    - [JsString]: JavaScript strings as sequences of UTF-16 code units, with the
      string built-ins the program calls ([trim], [split], [padStart],
      [String(n)], [replace] with a character class);
    - [Regex]: the two regular expressions of [validate], a matcher for them and
      the languages they denote;
    - [JsNumber], [JsDate]: numbers and the [Date] operations used by
      [generateTimeSlots] and [validate];
    - [TimeSlots]: [generateTimeSlots];
    - [App]: the component state, [countBookings], [availableTables],
      [validate], [handleSubmit], [handleCancel];
    - [Calendar]: [formatDate]; [View]: the list of upcoming bookings;
      [Editing]: [handleChange] and the Reset button.

    What the runtime supplies (the clock, the local time zone, the parser behind
    [new Date(string)], the string-to-number conversion, the generated id) is an
    explicit argument of the functions that read it. *)

From Stdlib Require Import ZArith NArith QArith String Ascii List Lia DecimalString.
From stdpp Require Import gmap list.

Open Scope Z_scope.

(** ** Strings *)

Module JsString.

(** A string is the list of its UTF-16 code units; [===] on strings is equality
    of these lists. *)
Abbreviation jsstring := (list N).

(** Literals are written as Rocq strings of ASCII characters. *)
Definition js (s : string) : jsstring :=
  List.map N_of_ascii (list_ascii_of_string s).

(** [0-9], which is also what [\d] matches. *)
Definition is_digit (c : N) : bool := ((48 <=? c) && (c <=? 57))%N.

(** White space and line terminators of ECMAScript: what [trim] removes and what
    [\s] matches. *)
Definition is_space (c : N) : bool :=
  ((9 <=? c) && (c <=? 13) || (c =? 32) || (c =? 160) || (c =? 5760)
   || (8192 <=? c) && (c <=? 8202) || (c =? 8232) || (c =? 8233)
   || (c =? 8239) || (c =? 8287) || (c =? 12288) || (c =? 65279))%N.

Fixpoint trimStart (s : jsstring) : jsstring :=
  match s with
  | c :: s' => if is_space c then trimStart s' else s
  | [] => []
  end.

Definition trimEnd (s : jsstring) : jsstring := rev (trimStart (rev s)).

Definition trim (s : jsstring) : jsstring := trimEnd (trimStart s).

(** [s.replace(/[^0-9]/g, empty)]: every code unit outside [0-9] is deleted. *)
Definition strip_non_digits (s : jsstring) : jsstring :=
  List.filter is_digit s.

(** [s.split(sep)] for a separator of one code unit. *)
Fixpoint split (sep : N) (s : jsstring) : list jsstring :=
  match s with
  | [] => [[]]
  | c :: s' =>
      if (c =? sep)%N then [] :: split sep s'
      else match split sep s' with
           | p :: ps => (c :: p) :: ps
           | [] => [[c]]
           end
  end.

(** [s.padStart(n, "0")]. *)
Definition padStart0 (n : nat) (s : jsstring) : jsstring :=
  repeat 48%N (n - length s) ++ s.

(** [String(n)] for an integer (the decimal numeral, with a sign when negative). *)
Definition String_of_Z (n : Z) : jsstring :=
  js (NilEmpty.string_of_int (Z.to_int n)).

Definition colon : N := 58.

End JsString.

Import JsString.

(** ** Regular expressions

    [validate] tests two patterns, both anchored with [^] and [$] and neither
    with flags, so [test] asks whether the whole string belongs to the language
    of the pattern between the anchors. *)

Module Regex.

Inductive regex : Type :=
| Void
| Eps
| Cls (p : N -> bool)
| Cat (r1 r2 : regex)
| Alt (r1 r2 : regex)
| Star (r : regex).

(** [r+] *)
Definition plus (r : regex) : regex := Cat r (Star r).

(** [r{n}] *)
Fixpoint exactly (n : nat) (r : regex) : regex :=
  match n with
  | O => Eps
  | S n' => Cat r (exactly n' r)
  end.

(** [r{0,n}] *)
Fixpoint upto (n : nat) (r : regex) : regex :=
  match n with
  | O => Eps
  | S n' => Alt Eps (Cat r (upto n' r))
  end.

(** [r{lo,hi}] *)
Definition between (lo hi : nat) (r : regex) : regex :=
  Cat (exactly lo r) (upto (hi - lo) r).

Fixpoint nullable (r : regex) : bool :=
  match r with
  | Void => false
  | Eps => true
  | Cls _ => false
  | Cat r1 r2 => nullable r1 && nullable r2
  | Alt r1 r2 => nullable r1 || nullable r2
  | Star _ => true
  end.

(** The residual of [r] after reading the code unit [c]. *)
Fixpoint deriv (c : N) (r : regex) : regex :=
  match r with
  | Void => Void
  | Eps => Void
  | Cls p => if p c then Eps else Void
  | Cat r1 r2 =>
      if nullable r1 then Alt (Cat (deriv c r1) r2) (deriv c r2)
      else Cat (deriv c r1) r2
  | Alt r1 r2 => Alt (deriv c r1) (deriv c r2)
  | Star r1 => Cat (deriv c r1) (Star r1)
  end.

Fixpoint matches (r : regex) (s : jsstring) : bool :=
  match s with
  | [] => nullable r
  | c :: s' => matches (deriv c r) s'
  end.

(** [/^r$/.test(s)] *)
Definition test (r : regex) (s : jsstring) : bool := matches r s.

(** The language of a pattern. *)
Inductive lang : regex -> jsstring -> Prop :=
| lang_eps : lang Eps []
| lang_cls p c : p c = true -> lang (Cls p) [c]
| lang_cat r1 r2 s1 s2 : lang r1 s1 -> lang r2 s2 -> lang (Cat r1 r2) (s1 ++ s2)
| lang_alt_l r1 r2 s : lang r1 s -> lang (Alt r1 r2) s
| lang_alt_r r1 r2 s : lang r2 s -> lang (Alt r1 r2) s
| lang_star_nil r : lang (Star r) []
| lang_star_app r s1 s2 : lang r s1 -> lang (Star r) s2 -> lang (Star r) (s1 ++ s2).

(** [/^\d{7,15}$/] *)
Definition phone_re : regex := between 7 15 (Cls is_digit).

(** [[^@\s]] *)
Definition not_at_space (c : N) : bool := negb ((c =? 64)%N || is_space c).

(** [/^[^@\s]+@[^@\s]+\.[^@\s]+$/] *)
Definition email_re : regex :=
  Cat (plus (Cls not_at_space))
    (Cat (Cls (N.eqb 64))
       (Cat (plus (Cls not_at_space))
          (Cat (Cls (N.eqb 46))
             (plus (Cls not_at_space))))).

End Regex.

(** ** Numbers *)

Module JsNumber.

(** A number is NaN, an infinity or a finite value. Every finite double is a
    rational and doubles compare as their values do, so the comparisons below are
    those of the program; signed zeros are not told apart. Sums are exact, which
    is what double arithmetic gives on the integers below 2^53 that the program
    adds. *)
Inductive jsnum : Type :=
| NaN
| NegInf
| PosInf
| Fin (q : Q).

Definition of_Z (z : Z) : jsnum := Fin (inject_Z z).

(** [a <= b] *)
Definition num_le (a b : jsnum) : bool :=
  match a, b with
  | NaN, _ | _, NaN => false
  | NegInf, _ => true
  | _, PosInf => true
  | Fin x, Fin y => Qle_bool x y
  | _, _ => false
  end.

(** [a >= b] *)
Definition num_ge (a b : jsnum) : bool := num_le b a.

(** [a + b] *)
Definition num_add (a b : jsnum) : jsnum :=
  match a, b with
  | NaN, _ | _, NaN => NaN
  | NegInf, PosInf | PosInf, NegInf => NaN
  | NegInf, _ | _, NegInf => NegInf
  | PosInf, _ | _, PosInf => PosInf
  | Fin x, Fin y => Fin (x + y)
  end.

(** ToIntegerOrInfinity on a finite value: truncation towards zero. *)
Definition truncate (q : Q) : Z := Z.quot (Qnum q) (Zpos (Qden q)).

(** A value held by a form field: the initial party size is a number, every
    value written by an input element is a string. *)
Inductive jsval : Type :=
| VNum (n : jsnum)
| VStr (s : jsstring).

End JsNumber.

Import JsNumber.

(** ** What the host provides

    [LocalTime] and [UTC] are the conversions of ECMAScript between UTC time
    values and local time values (milliseconds); [StringToNumber] is [Number]
    on a string; [Date_parse s] is [Date.parse(s)], [None] standing for NaN
    (the string is not a date). *)

Class Runtime : Type := {
  LocalTime : Z -> Z;
  UTC : Z -> Z;
  StringToNumber : jsstring -> jsnum;
  Date_parse : jsstring -> option Z
}.

(** ** Dates *)

Module JsDate.

(** The time value of a [Date] object: [None] is NaN. *)
Abbreviation time_value := (option Z).

Definition msPerDay : Z := 86400000.
Definition msPerHour : Z := 3600000.
Definition msPerMinute : Z := 60000.
Definition msPerSecond : Z := 1000.
Definition maxTime : Z := 8640000000000000.

Definition Day (t : Z) : Z := t / msPerDay.
Definition HourFromTime (t : Z) : Z := (t / msPerHour) mod 24.
Definition MinFromTime (t : Z) : Z := (t / msPerMinute) mod 60.
Definition SecFromTime (t : Z) : Z := (t / msPerSecond) mod 60.
Definition msFromTime (t : Z) : Z := t mod msPerSecond.

Definition MakeTime (hour min sec ms : jsnum) : time_value :=
  match hour, min, sec, ms with
  | Fin h, Fin m, Fin s, Fin milli =>
      Some (truncate h * msPerHour + truncate m * msPerMinute
            + truncate s * msPerSecond + truncate milli)
  | _, _, _, _ => None
  end.

Definition MakeDate (day : Z) (time : time_value) : time_value :=
  match time with
  | Some tm => Some (day * msPerDay + tm)
  | None => None
  end.

Definition TimeClip (t : time_value) : time_value :=
  match t with
  | Some v => if Z.abs v <=? maxTime then Some v else None
  | None => None
  end.

(** [a <= b] and [a < b] on dates: the time values are compared as numbers. *)
Definition date_le (a b : time_value) : bool :=
  match a, b with
  | Some x, Some y => x <=? y
  | _, _ => false
  end.

Definition date_lt (a b : time_value) : bool :=
  match a, b with
  | Some x, Some y => x <? y
  | _, _ => false
  end.

(** [new Date(n)] for a number [n]. *)
Definition Date_of_number (n : Z) : time_value := TimeClip (Some n).

(** A number produced by a getter, and its [String(...)]. *)
Definition to_num (v : option Z) : jsnum :=
  match v with
  | Some z => of_Z z
  | None => NaN
  end.

Definition String_of_getter (v : option Z) : jsstring :=
  match v with
  | Some z => String_of_Z z
  | None => js "NaN"
  end.

Section LocalZone.
Context {rt : Runtime}.

Definition getHours (d : time_value) : option Z :=
  match d with
  | Some t => Some (HourFromTime (LocalTime t))
  | None => None
  end.

Definition getMinutes (d : time_value) : option Z :=
  match d with
  | Some t => Some (MinFromTime (LocalTime t))
  | None => None
  end.

(** [new Date(s)] for a string [s]. *)
Definition Date_of_string (s : jsstring) : time_value := TimeClip (Date_parse s).

(** [d.setHours(hour, min, sec, ms)]: the new time value of [d]. *)
Definition setHours (d : time_value) (hour min sec ms : jsnum) : time_value :=
  match d with
  | Some t =>
      let tl := LocalTime t in
      TimeClip (option_map UTC (MakeDate (Day tl) (MakeTime hour min sec ms)))
  | None => None
  end.

(** [d.setMinutes(min)]: the new time value of [d]. *)
Definition setMinutes (d : time_value) (min : jsnum) : time_value :=
  match d with
  | Some t =>
      let tl := LocalTime t in
      TimeClip (option_map UTC
        (MakeDate (Day tl)
           (MakeTime (of_Z (HourFromTime tl)) min
              (of_Z (SecFromTime tl)) (of_Z (msFromTime tl)))))
  | None => None
  end.

End LocalZone.

End JsDate.

Import JsDate.

(** ** [generateTimeSlots] *)

Module TimeSlots.

Section WithRuntime.
Context {rt : Runtime}.

(** [const [h, m] = s.split(":").map(Number)]; a missing component is
    [undefined], which [setHours] converts to NaN. *)
Definition hours_minutes (s : jsstring) : jsnum * jsnum :=
  let parts := List.map StringToNumber (split colon s) in
  (nth 0 parts NaN, nth 1 parts NaN).

(** The [while] loop. [base] is the time value of the date object that the loop
    advances, [slots] the array built so far. The loop needs not terminate (a
    step of zero never advances [base]), so it runs on [fuel]: [None] means that
    the fuel ran out before the loop condition became false. *)
Fixpoint slots_loop (fuel : nat) (stepMinutes : jsnum)
    (base end_ : time_value) (slots : list jsstring) : option (list jsstring) :=
  match fuel with
  | O => None
  | S fuel' =>
      if date_le base end_ then
        let hh := padStart0 2 (String_of_getter (getHours base)) in
        let mm := padStart0 2 (String_of_getter (getMinutes base)) in
        let slots' := slots ++ [hh ++ [colon] ++ mm] in
        let base' :=
          setMinutes base (num_add (to_num (getMinutes base)) stepMinutes) in
        slots_loop fuel' stepMinutes base' end_ slots'
      else Some slots
  end.

(** [now1] and [now2] are the clock values read by the two [new Date()] calls,
    in this order. *)
Definition generateTimeSlots (fuel : nat) (now1 now2 : Z)
    (open close : jsstring) (stepMinutes : jsnum) : option (list jsstring) :=
  let '(openH, openM) := hours_minutes open in
  let '(closeH, closeM) := hours_minutes close in
  let base := setHours (Some now1) openH openM (of_Z 0) (of_Z 0) in
  let end_ := setHours (Some now2) closeH closeM (of_Z 0) (of_Z 0) in
  slots_loop fuel stepMinutes base end_ [].

End WithRuntime.

End TimeSlots.

Import TimeSlots.

(** ** The component *)

Module Booking.

(** An element of the [bookings] array, as [handleSubmit] builds it. *)
Record t : Type := mk {
  id : jsstring;
  name : jsstring;
  phone : jsstring;
  email : jsstring;
  date : jsstring;
  time : jsstring;
  partySize : jsnum;
  notes : jsstring;
  createdAt : jsstring
}.

End Booking.

Module Form.

(** The [form] state object. *)
Record t : Type := mk {
  name : jsstring;
  phone : jsstring;
  email : jsstring;
  date : jsstring;
  time : jsstring;
  partySize : jsval;
  notes : jsstring
}.

End Form.

Module App.

Definition MAX_TABLES_PER_SLOT : Z := 6.

(** The four [useState] cells. [success] is [null] or an object holding a
    message. *)
Record AppState : Type := mkState {
  bookings : list Booking.t;
  form : Form.t;
  errors : gmap jsstring jsstring;
  success : option jsstring
}.

(** What one run of [handleSubmit] reads from its surroundings: the clock seen
    by [validate], the identifier computed from [Date.now()] and
    [Math.random()], and the text of [new Date().toISOString()]. *)
Record Ambient : Type := mkAmbient {
  clock : Z;
  new_id : jsstring;
  iso_now : jsstring
}.

Definition countBookings (bookings : list Booking.t) (date time : jsstring) : Z :=
  Z.of_nat
    (length (filter (fun b => Booking.date b = date /\ Booking.time b = time)
               bookings)).

Definition availableTables (bookings : list Booking.t) (date time : jsstring) : Z :=
  Z.max 0 (MAX_TABLES_PER_SLOT - countBookings bookings date time).

(** The keys and the messages of the error object. *)
Definition k_name : jsstring := js "name".
Definition k_phone : jsstring := js "phone".
Definition k_email : jsstring := js "email".
Definition k_date : jsstring := js "date".
Definition k_partySize : jsstring := js "partySize".
Definition k_time : jsstring := js "time".

Definition msg_name : jsstring := js "Name is required.".
Definition msg_phone : jsstring :=
  js "Enter a valid phone number (7" ++ [8211%N] ++ js "15 digits).".
Definition msg_email : jsstring := js "Enter a valid email.".
Definition msg_date : jsstring := js "Please choose a future date/time.".
Definition msg_partySize : jsstring := js "Party size must be between 1 and 12.".
Definition msg_time : jsstring := js "No tables available for the chosen slot.".

(** [if (cond) e[key] = msg] *)
Definition set_if (cond : bool) (key msg : jsstring)
    (e : gmap jsstring jsstring) : gmap jsstring jsstring :=
  if cond then <[key := msg]> e else e.

(** A string is truthy when it is not empty. *)
Definition truthy (s : jsstring) : bool :=
  match s with
  | [] => false
  | _ :: _ => true
  end.

Section WithRuntime.
Context {rt : Runtime}.

(** [Number(v)] *)
Definition Number (v : jsval) : jsnum :=
  match v with
  | VNum n => n
  | VStr s => StringToNumber s
  end.

(** The object [e] that [validate] fills; [now] is the clock it reads. *)
Definition validation_errors (now : Z) (bookings : list Booking.t)
    (form : Form.t) : gmap jsstring jsstring :=
  let e : gmap jsstring jsstring := ∅ in
  let e := set_if (negb (truthy (trim (Form.name form)))) k_name msg_name e in
  let e :=
    set_if (negb (Regex.test Regex.phone_re (strip_non_digits (Form.phone form))))
      k_phone msg_phone e in
  let e :=
    set_if (negb (Regex.test Regex.email_re (Form.email form)))
      k_email msg_email e in
  let selected :=
    Date_of_string (Form.date form ++ js "T" ++ Form.time form ++ js ":00") in
  let e :=
    set_if (date_lt selected (Date_of_number (now - 5 * 60 * 1000)))
      k_date msg_date e in
  let e :=
    set_if (negb (num_ge (Number (Form.partySize form)) (of_Z 1)
                  && num_le (Number (Form.partySize form)) (of_Z 12)))
      k_partySize msg_partySize e in
  let e :=
    set_if (availableTables bookings (Form.date form) (Form.time form) <=? 0)
      k_time msg_time e in
  e.

(** [validate()]: stores the error object and answers whether it has no key. *)
Definition validate (now : Z) (st : AppState) : AppState * bool :=
  let e := validation_errors now (bookings st) (form st) in
  (mkState (bookings st) (form st) e (success st),
   bool_decide (size e = 0%nat)).

(** The object literal [newBooking] of [handleSubmit]. *)
Definition newBooking (amb : Ambient) (f : Form.t) : Booking.t :=
  Booking.mk (new_id amb)
    (trim (Form.name f)) (trim (Form.phone f)) (trim (Form.email f))
    (Form.date f) (Form.time f)
    (Number (Form.partySize f))
    (trim (Form.notes f))
    (iso_now amb).

Definition handleSubmit (amb : Ambient) (st : AppState) : AppState :=
  let st := mkState (bookings st) (form st) (errors st) None in
  let '(st, ok) := validate (clock amb) st in
  if negb ok then st
  else
    let f := form st in
    mkState
      (newBooking amb f :: bookings st)
      (Form.mk [] [] [] (Form.date f) (Form.time f) (Form.partySize f) [])
      (errors st)
      (Some (js "Booking confirmed for " ++ Form.date f ++ js " at "
             ++ Form.time f)).

End WithRuntime.

(** [handleCancel(id)]; [confirmed] is the answer of the [confirm] dialog. *)
Definition handleCancel (confirmed : bool) (id : jsstring)
    (st : AppState) : AppState :=
  if negb confirmed then st
  else
    mkState (filter (fun x => Booking.id x <> id) (bookings st))
      (form st) (errors st) (success st).

End App.

Import App.

(** ** Runs of the component

    The store changes through [handleSubmit] and [handleCancel] only; between
    two of them the user may edit the form in any way. A run starts with an
    empty [bookings] array. *)

Module Run.

Section WithRuntime.
Context {rt : Runtime}.

Inductive step : AppState -> AppState -> Prop :=
| step_edit st f e s :
    step st (mkState (bookings st) f e s)
| step_submit st amb :
    step st (handleSubmit amb st)
| step_cancel st confirmed id :
    step st (handleCancel confirmed id st).

Inductive reachable : AppState -> Prop :=
| reachable_init f e s : reachable (mkState [] f e s)
| reachable_step st st' : reachable st -> step st st' -> reachable st'.

End WithRuntime.

End Run.

(** ** A concrete host

    Used to run the program on examples: a zone at a fixed offset from UTC, a
    reader of unsigned decimal numerals (digits, with an optional fraction) and
    a reader of date-times of the shape YYYY-MM-DDTHH:MM:SS taken as local time.
    On strings of these shapes whose value is a double, such as 3, 11 or 2.5,
    and on valid calendar dates, this is what a browser computes; the readers
    answer NaN on every other string. *)

Module Host.

Definition digits_value (s : jsstring) : Z :=
  fold_left (fun acc c => acc * 10 + (Z.of_N c - 48)) s 0.

Definition all_digits (s : jsstring) : bool :=
  match s with
  | [] => false
  | _ => forallb is_digit s
  end.

Definition decimal_number (s : jsstring) : jsnum :=
  match split 46%N (trim s) with
  | [[]] => of_Z 0
  | [i] => if all_digits i then of_Z (digits_value i) else NaN
  | [i; f] =>
      if all_digits i && all_digits f
      then Fin (Qred (digits_value (i ++ f) # Pos.pow 10 (Pos.of_nat (length f))))
      else NaN
  | _ => NaN
  end.

Definition days_from_civil (y m d : Z) : Z :=
  let y' := if m <=? 2 then y - 1 else y in
  let era := y' / 400 in
  let yoe := y' - era * 400 in
  let mp := (m + 9) mod 12 in
  let doy := (153 * mp + 2) / 5 + d - 1 in
  let doe := yoe * 365 + yoe / 4 - yoe / 100 + doy in
  era * 146097 + doe - 719468.

Definition is_leap (y : Z) : bool :=
  ((y mod 4 =? 0) && negb (y mod 100 =? 0)) || (y mod 400 =? 0).

Definition days_in_month (y m : Z) : Z :=
  if m =? 2 then (if is_leap y then 29 else 28)
  else if (m =? 4) || (m =? 6) || (m =? 9) || (m =? 11) then 30
  else 31.

Definition sub (i n : nat) (s : jsstring) : jsstring := firstn n (skipn i s).

Definition iso_local (off : Z) (s : jsstring) : option Z :=
  let field i n := sub i n s in
  let sep i c := bool_decide (sub i 1 s = [c]) in
  let num i n := digits_value (field i n) in
  let y := num 0%nat 4%nat in
  let mo := num 5%nat 2%nat in
  let d := num 8%nat 2%nat in
  let h := num 11%nat 2%nat in
  let mi := num 14%nat 2%nat in
  let sc := num 17%nat 2%nat in
  if (length s =? 19)%nat
     && forallb all_digits
          [field 0%nat 4%nat; field 5%nat 2%nat; field 8%nat 2%nat;
           field 11%nat 2%nat; field 14%nat 2%nat; field 17%nat 2%nat]
     && sep 4%nat 45%N && sep 7%nat 45%N && sep 10%nat 84%N
     && sep 13%nat colon && sep 16%nat colon
     && (1 <=? mo) && (mo <=? 12) && (1 <=? d) && (d <=? days_in_month y mo)
     && (h <=? 23) && (mi <=? 59) && (sc <=? 59)
  then Some (days_from_civil y mo d * msPerDay
             + h * msPerHour + mi * msPerMinute + sc * msPerSecond - off)
  else None.

Definition fixed_zone (off : Z) : Runtime :=
  {| LocalTime := fun t => t + off;
     UTC := fun t => t - off;
     StringToNumber := decimal_number;
     Date_parse := iso_local off |}.

Definition utc : Runtime := fixed_zone 0.

End Host.

(** ** The six validation rules

    Each rule is stated on the data it constrains: what the candidate has to
    look like, not how [validate] tests it. [validate] writes the message of a
    violated rule under the key [field]. The party-size rule compares the number
    [Number(partySize)] with 1 and 12; the date rule compares the time value of
    the combined date and time, when there is one, with the date that lies
    [gracePeriod] before the clock. *)

Module Rules.

Inductive rule : Type :=
| Name
| Phone
| Email
| DateTime
| PartySize
| Availability.

Definition field (r : rule) : jsstring :=
  match r with
  | Name => k_name
  | Phone => k_phone
  | Email => k_email
  | DateTime => k_date
  | PartySize => k_partySize
  | Availability => k_time
  end.

Definition message (r : rule) : jsstring :=
  match r with
  | Name => msg_name
  | Phone => msg_phone
  | Email => msg_email
  | DateTime => msg_date
  | PartySize => msg_partySize
  | Availability => msg_time
  end.

(** local-part, an at sign, a domain, a dot, a top-level part: three non-empty
    runs free of at signs and white space. *)
Definition email_shape (s : jsstring) : Prop :=
  exists l d t : jsstring,
    s = l ++ [64%N] ++ d ++ [46%N] ++ t /\
    l <> [] /\ d <> [] /\ t <> [] /\
    forallb Regex.not_at_space (l ++ d ++ t) = true.

Definition between_1_and_12 (n : jsnum) : Prop :=
  match n with
  | Fin q => (1 <= q)%Q /\ (q <= 12)%Q
  | _ => False
  end.

Definition gracePeriod : Z := 5 * 60 * 1000.

Section WithRuntime.
Context {rt : Runtime}.

(** The time value of the candidate's date and time, if they form a date. *)
Definition selected (c : Form.t) : option Z :=
  Date_of_string (Form.date c ++ js "T" ++ Form.time c ++ js ":00").

Definition violated (r : rule) (now : Z) (store : list Booking.t)
    (c : Form.t) : Prop :=
  match r with
  | Name => trim (Form.name c) = []
  | Phone =>
      ~ (7 <= length (strip_non_digits (Form.phone c)) <= 15)%nat
  | Email => ~ email_shape (Form.email c)
  | DateTime =>
      exists t limit,
        selected c = Some t /\
        Date_of_number (now - gracePeriod) = Some limit /\
        t < limit
  | PartySize => ~ between_1_and_12 (Number (Form.partySize c))
  | Availability =>
      ~ (0 < availableTables store (Form.date c) (Form.time c))
  end.

(** The condition of the [if] statement of [validate] for each rule. *)
Definition failing (r : rule) (now : Z) (store : list Booking.t)
    (c : Form.t) : bool :=
  match r with
  | Name => negb (truthy (trim (Form.name c)))
  | Phone =>
      negb (Regex.test Regex.phone_re (strip_non_digits (Form.phone c)))
  | Email => negb (Regex.test Regex.email_re (Form.email c))
  | DateTime =>
      date_lt (Date_of_string (Form.date c ++ js "T" ++ Form.time c ++ js ":00"))
        (Date_of_number (now - 5 * 60 * 1000))
  | PartySize =>
      negb (num_ge (Number (Form.partySize c)) (of_Z 1)
            && num_le (Number (Form.partySize c)) (of_Z 12))
  | Availability =>
      availableTables store (Form.date c) (Form.time c) <=? 0
  end.

End WithRuntime.

(** The values a clock or a date can hold. *)
Definition is_time_value (t : Z) : Prop := - maxTime <= t <= maxTime.

(** The number of bookings of a slot, counted entry by entry. *)
Fixpoint slot_count (store : list Booking.t) (date time : jsstring) : nat :=
  match store with
  | [] => 0
  | b :: rest =>
      (if decide (Booking.date b = date /\ Booking.time b = time)
       then 1 else 0) + slot_count rest date time
  end.

End Rules.

(** ** The rules as the specification words them

    The specification lets a party size pass when it is an integer from 1 to
    12; [validate] compares the number with 1 and 12 and does not ask for an
    integer. The other five rules are those of [Rules]. *)

Module SpecRules.
Import Rules.

Definition integer_1_to_12 (n : jsnum) : Prop :=
  match n with
  | Fin q => exists k : Z, (q == inject_Z k)%Q /\ 1 <= k <= 12
  | _ => False
  end.

Section WithRuntime.
Context {rt : Runtime}.

Definition fails (r : rule) (now : Z) (store : list Booking.t)
    (c : Form.t) : Prop :=
  match r with
  | PartySize => ~ integer_1_to_12 (Number (Form.partySize c))
  | _ => violated r now store c
  end.

(** A party size between 1 and 12 that is not an integer: it fails the rule of
    the specification and passes the test of [validate]. *)
Definition fractional_party (c : Form.t) : Prop :=
  between_1_and_12 (Number (Form.partySize c))
  /\ ~ integer_1_to_12 (Number (Form.partySize c)).

End WithRuntime.

End SpecRules.

(** ** Slots as minutes of the day

    The vocabulary in which the properties of [generateTimeSlots] are stated:
    what a well-formed slot is and which minute of the day it names, the order
    of strings, and the grid of minutes between two bounds. *)

Module Slot.

Definition digit (c : N) : Z := Z.of_N c - 48.

(** [String(n).padStart(2, "0")] *)
Definition two_digits (n : Z) : jsstring := padStart0 2 (String_of_Z n).

(** The text of minute [m] of the day. *)
Definition hhmm (m : Z) : jsstring :=
  two_digits (m / 60) ++ [colon] ++ two_digits (m mod 60).

(** The minute of the day named by a string of the form HH:MM, with HH from 00
    to 23 and MM from 00 to 59. *)
Definition minutes (s : jsstring) : option Z :=
  match s with
  | [a; b; c; d; e] =>
      if is_digit a && is_digit b && (c =? colon)%N && is_digit d && is_digit e
         && (digit a * 10 + digit b <? 24) && (digit d * 10 + digit e <? 60)
      then Some ((digit a * 10 + digit b) * 60 + (digit d * 10 + digit e))
      else None
  | _ => None
  end.

Definition well_formed (s : jsstring) : Prop := minutes s <> None.

(** [a < b] on strings: the first code unit that differs decides, and a proper
    prefix comes first. *)
Fixpoint str_ltb (a b : jsstring) : bool :=
  match a, b with
  | _, [] => false
  | [], _ :: _ => true
  | x :: a', y :: b' => (x <? y)%N || ((x =? y)%N && str_ltb a' b')
  end.

Fixpoint increasing (l : list jsstring) : bool :=
  match l with
  | a :: (b :: _) as rest => str_ltb a b && increasing rest
  | _ => true
  end.

(** [n] minutes starting at [start], [k] apart. *)
Fixpoint grid (n : nat) (start k : Z) : list Z :=
  match n with
  | O => []
  | S n' => start :: grid n' (start + k) k
  end.

(** The minutes from [mo] to [mc] on the grid of step [k] that starts at
    [mo]. *)
Definition grid_between (mo mc k : Z) : list Z :=
  grid (Z.to_nat ((mc - mo) / k + 1)) mo k.

(** The five code units of the text of minute [m], written out. *)
Definition digits_of (m : Z) : jsstring :=
  [Z.to_N (48 + m / 600); Z.to_N (48 + (m / 60) mod 10); colon;
   Z.to_N (48 + (m mod 60) / 10); Z.to_N (48 + m mod 10)].

(** Tests run over all the minutes of a day. *)
Definition same (a b : jsstring) : bool := bool_decide (a = b).

Definition reads_back (m : Z) : bool :=
  match minutes (hhmm m) with
  | Some x => x =? m
  | None => false
  end.

Definition next_is_later (m : Z) : bool := str_ltb (hhmm m) (hhmm (m + 1)).

(** A zone whose local time is UTC plus a constant. *)
Definition fixed_offset (rt : Runtime) (off : Z) : Prop :=
  (forall t, LocalTime t = t + off) /\ (forall t, UTC t = t - off).

(** A clock more than a day away from the epoch and from the last time value:
    the dates of our era. *)
Definition ordinary_clock (now : Z) : Prop :=
  msPerDay <= now <= maxTime - msPerDay.

(** [Number] reads a numeral of two digits as its value. *)
Definition reads_two_digits (rt : Runtime) : Prop :=
  forall a b, is_digit a = true -> is_digit b = true ->
    StringToNumber [a; b] = of_Z (digit a * 10 + digit b).

End Slot.

(** ** Sample data *)

Module Examples.

(** 2025-01-01T00:00:00Z *)
Definition new_year : Z := 1735689600000.

Definition at_time (h m : Z) : Z := new_year + h * msPerHour + m * msPerMinute.

(** A submission made at 10:00 on that day. *)
Definition morning : Ambient :=
  mkAmbient (at_time 10 0) (js "m5e0x2q8k3fz1a") (js "2025-01-01T10:00:00.000Z").

(** Submissions made at 18:10 and at 18:03. *)
Definition ten_past : Ambient :=
  mkAmbient (at_time 18 10) (js "m5ehk1d4w9c0bq") (js "2025-01-01T18:10:00.000Z").
Definition three_past : Ambient :=
  mkAmbient (at_time 18 3) (js "m5eh7zq1r8t2ms") (js "2025-01-01T18:03:00.000Z").

(** Noon, the last millisecond of the day, and the midnight that follows. *)
Definition noon : Z := at_time 12 0.
Definition last_ms : Z := new_year + msPerDay - 1.
Definition midnight : Z := new_year + msPerDay.

Definition ana : Form.t :=
  Form.mk (js "Ana") (js "123-456-7890") (js "ana@x.com")
    (js "2025-01-01") (js "18:00") (VStr (js "3")) [].

Definition ana_bad_email : Form.t :=
  Form.mk (js "Ana") (js "123-456-7890") (js "not-an-email")
    (js "2025-01-01") (js "18:00") (VStr (js "3")) [].

(** The same candidate with a party of two and a half. *)
Definition ana_half : Form.t :=
  Form.mk (js "Ana") (js "123-456-7890") (js "ana@x.com")
    (js "2025-01-01") (js "18:00") (VStr (js "2.5")) [].

Definition guest (i : jsstring) : Booking.t :=
  Booking.mk i (js "Guest") (js "5551234567") (js "guest@x.com")
    (js "2025-01-01") (js "18:00") (of_Z 2) []
    (js "2024-12-31T09:00:00.000Z").

Definition full_slot : list Booking.t :=
  List.map guest [js "a"; js "b"; js "c"; js "d"; js "e"; js "f"].

Definition idle (store : list Booking.t) (f : Form.t) : AppState :=
  mkState store f ∅ None.

(** The same candidate typed in and submitted [n] times in a row. *)
Fixpoint submit_times (n : nat) (st : AppState) : AppState :=
  match n with
  | O => st
  | S n' =>
      handleSubmit (rt := Host.utc) morning
        (mkState (bookings (submit_times n' st)) ana ∅ None)
  end.

End Examples.

(** ** The rest of the component

    The list shown under the bookings heading, the two handlers that edit the
    form, and what a stored booking looks like. *)

Module View.

(** [a >= b] on dates. *)
Definition date_ge (a b : time_value) : bool :=
  match a, b with
  | Some x, Some y => y <=? x
  | _, _ => false
  end.

Section WithRuntime.
Context {rt : Runtime}.

(** The callback of [bookings.filter(...)] on the entry [b]; [now] is the clock
    read by its [new Date()]. *)
Definition is_upcoming (now : Z) (b : Booking.t) : bool :=
  date_ge (Date_of_string (Booking.date b ++ js "T" ++ Booking.time b))
    (Some now).

(** [filter] runs the callback once per entry, from the first to the last, and
    each run reads the clock: [clock i] is the value read by run number [i]. *)
Fixpoint filter_upcoming (clock : nat -> Z) (i : nat)
    (bookings : list Booking.t) : list Booking.t :=
  match bookings with
  | [] => []
  | b :: rest =>
      if is_upcoming (clock i) b
      then b :: filter_upcoming clock (S i) rest
      else filter_upcoming clock (S i) rest
  end.

(** [bookings.filter(...).slice(0, 50)] *)
Definition upcomingBookings (clock : nat -> Z)
    (bookings : list Booking.t) : list Booking.t :=
  firstn 50 (filter_upcoming clock 0 bookings).

End WithRuntime.

End View.

Module Editing.

Definition k_notes : jsstring := js "notes".

(** [{ ...f, [name]: value }] on the seven properties the program reads; a
    value written by an input element is a string. Another [name] adds a
    property that nothing reads. *)
Definition set_field (name value : jsstring) (f : Form.t) : Form.t :=
  if bool_decide (name = k_name) then
    Form.mk value (Form.phone f) (Form.email f) (Form.date f) (Form.time f)
      (Form.partySize f) (Form.notes f)
  else if bool_decide (name = k_phone) then
    Form.mk (Form.name f) value (Form.email f) (Form.date f) (Form.time f)
      (Form.partySize f) (Form.notes f)
  else if bool_decide (name = k_email) then
    Form.mk (Form.name f) (Form.phone f) value (Form.date f) (Form.time f)
      (Form.partySize f) (Form.notes f)
  else if bool_decide (name = k_date) then
    Form.mk (Form.name f) (Form.phone f) (Form.email f) value (Form.time f)
      (Form.partySize f) (Form.notes f)
  else if bool_decide (name = k_time) then
    Form.mk (Form.name f) (Form.phone f) (Form.email f) (Form.date f) value
      (Form.partySize f) (Form.notes f)
  else if bool_decide (name = k_partySize) then
    Form.mk (Form.name f) (Form.phone f) (Form.email f) (Form.date f)
      (Form.time f) (VStr value) (Form.notes f)
  else if bool_decide (name = k_notes) then
    Form.mk (Form.name f) (Form.phone f) (Form.email f) (Form.date f)
      (Form.time f) (Form.partySize f) value
  else f.

(** [handleChange(e)] with [e.target.name] and [e.target.value]. The error
    object gets the key [name] with the value [undefined]; the program reads
    the error object through [errors.key] only, which cannot tell such a key
    from a missing one, so the key is removed here. *)
Definition handleChange (name value : jsstring) (st : AppState) : AppState :=
  mkState (bookings st) (set_field name value (form st))
    (delete name (errors st)) (success st).

(** The [onClick] of the Reset button. *)
Definition resetClick (st : AppState) : AppState :=
  mkState (bookings st)
    (Form.mk [] [] [] (Form.date (form st)) (Form.time (form st))
       (Form.partySize (form st)) [])
    ∅ None.

(** [f[name]]: the value of a property of the form, [None] when there is no
    such property. *)
Definition read_field (name : jsstring) (f : Form.t) : option jsval :=
  if bool_decide (name = k_name) then Some (VStr (Form.name f))
  else if bool_decide (name = k_phone) then Some (VStr (Form.phone f))
  else if bool_decide (name = k_email) then Some (VStr (Form.email f))
  else if bool_decide (name = k_date) then Some (VStr (Form.date f))
  else if bool_decide (name = k_time) then Some (VStr (Form.time f))
  else if bool_decide (name = k_partySize) then Some (Form.partySize f)
  else if bool_decide (name = k_notes) then Some (VStr (Form.notes f))
  else None.

End Editing.

(** ** [formatDate]

    The calendar functions of ECMAScript behind [getFullYear], [getMonth] and
    [getDate], on local time values. *)

Module Calendar.

Definition DaysInYear (y : Z) : Z :=
  if (y mod 4 =? 0) && (negb (y mod 100 =? 0) || (y mod 400 =? 0))
  then 366 else 365.

Definition DayFromYear (y : Z) : Z :=
  365 * (y - 1970) + (y - 1969) / 4 - (y - 1901) / 100 + (y - 1601) / 400.

Definition TimeFromYear (y : Z) : Z := msPerDay * DayFromYear y.

(** [YearFromTime(t)] is the largest year [y] with [TimeFromYear(y) <= t]. It
    is found by going down from [1970 + d / 365] or [1970 + d / 366], whichever
    is larger, [d] being the day number of [t]: the year looked for lies
    between these two. *)
Fixpoint year_down (fuel : nat) (y t : Z) : Z :=
  match fuel with
  | O => y
  | S fuel' => if TimeFromYear y <=? t then y else year_down fuel' (y - 1) t
  end.

Definition YearFromTime (t : Z) : Z :=
  let d := Day t in
  year_down (Z.to_nat (Z.abs (d / 365 - d / 366)) + 1)
    (1970 + Z.max (d / 365) (d / 366)) t.

Definition InLeapYear (t : Z) : Z :=
  if DaysInYear (YearFromTime t) =? 366 then 1 else 0.

Definition DayWithinYear (t : Z) : Z := Day t - DayFromYear (YearFromTime t).

(** The month of the year and the day of the month of day [d] of a year, [leap]
    being 1 in a leap year and 0 otherwise. *)
Definition month_in_year (leap d : Z) : Z :=
  if d <? 31 then 0
  else if d <? 59 + leap then 1
  else if d <? 90 + leap then 2
  else if d <? 120 + leap then 3
  else if d <? 151 + leap then 4
  else if d <? 181 + leap then 5
  else if d <? 212 + leap then 6
  else if d <? 243 + leap then 7
  else if d <? 273 + leap then 8
  else if d <? 304 + leap then 9
  else if d <? 334 + leap then 10
  else 11.

Definition date_in_month (leap d : Z) : Z :=
  match month_in_year leap d with
  | 0 => d + 1
  | 1 => d - 30
  | 2 => d - 58 - leap
  | 3 => d - 89 - leap
  | 4 => d - 119 - leap
  | 5 => d - 150 - leap
  | 6 => d - 180 - leap
  | 7 => d - 211 - leap
  | 8 => d - 242 - leap
  | 9 => d - 272 - leap
  | 10 => d - 303 - leap
  | _ => d - 333 - leap
  end.

Definition MonthFromTime (t : Z) : Z :=
  month_in_year (InLeapYear t) (DayWithinYear t).

Definition DateFromTime (t : Z) : Z :=
  date_in_month (InLeapYear t) (DayWithinYear t).

Section WithRuntime.
Context {rt : Runtime}.

Definition getFullYear (d : time_value) : option Z :=
  option_map (fun t => YearFromTime (LocalTime t)) d.

Definition getMonth (d : time_value) : option Z :=
  option_map (fun t => MonthFromTime (LocalTime t)) d.

Definition getDate (d : time_value) : option Z :=
  option_map (fun t => DateFromTime (LocalTime t)) d.

Definition formatDate (d : time_value) : jsstring :=
  let y := getFullYear d in
  let m :=
    padStart0 2 (String_of_getter (option_map (fun n => n + 1) (getMonth d))) in
  let day := padStart0 2 (String_of_getter (getDate d)) in
  String_of_getter y ++ js "-" ++ m ++ js "-" ++ day.

End WithRuntime.

(** The month and day part of the text, for day [d] of a year. *)
Definition md_text (leap d : Z) : jsstring :=
  padStart0 2 (String_of_Z (month_in_year leap d + 1)) ++ js "-"
  ++ padStart0 2 (String_of_Z (date_in_month leap d)).

(** Readers for the parts of a date text: four digits, and two digits, a
    hyphen and two digits. *)
Definition read_digits (s : jsstring) : option Z :=
  if forallb is_digit s then Some (Host.digits_value s) else None.

Definition read_year (s : jsstring) : option Z :=
  if (length s =? 4)%nat then read_digits s else None.

Definition read_month_day (s : jsstring) : option (Z * Z) :=
  match s with
  | [a; b; h; c; d] =>
      if (h =? 45)%N then
        match read_digits [a; b], read_digits [c; d] with
        | Some m, Some dd => Some (m, dd)
        | _, _ => None
        end
      else None
  | _ => None
  end.

(** The year, month and day named by a text of the form YYYY-MM-DD, when the
    month is one of the twelve and the day is a day of that month. *)
Definition iso_date (s : jsstring) : option (Z * Z * Z) :=
  match read_year (firstn 4 s), firstn 1 (skipn 4 s),
        read_month_day (skipn 5 s) with
  | Some y, [h], Some (m, dd) =>
      if (h =? 45)%N && (1 <=? m) && (m <=? 12) && (1 <=? dd)
         && (dd <=? Host.days_in_month y m)
      then Some (y, m, dd) else None
  | _, _, _ => None
  end.

(** Tests run over the years from 1970 to 9999 and over the days of a year. *)
Fixpoint all_from (f : Z -> bool) (n : nat) (start : Z) : bool :=
  match n with
  | O => true
  | S n' => f start && all_from f n' (start + 1)
  end.

Definition year_reads_back (y : Z) : bool :=
  match read_year (String_of_Z y) with
  | Some v => v =? y
  | None => false
  end.

Definition next_year_later (y : Z) : bool :=
  Slot.str_ltb (String_of_Z y) (String_of_Z (y + 1)).

Definition month_day_reads_back (leap d : Z) : bool :=
  match read_month_day (md_text leap d) with
  | Some (m, dd) =>
      (m =? month_in_year leap d + 1) && (dd =? date_in_month leap d)
      && (1 <=? m) && (m <=? 12) && (1 <=? dd)
      && (dd <=? (if m =? 2 then 28 + leap
                  else if (m =? 4) || (m =? 6) || (m =? 9) || (m =? 11)
                       then 30 else 31))
  | None => false
  end.

Definition next_day_later (leap d : Z) : bool :=
  Slot.str_ltb (md_text leap d) (md_text leap (d + 1)).

End Calendar.

(** A host like [Host.fixed_zone] whose date reader also takes the shape
    YYYY-MM-DDTHH:MM, the seconds being zero, as browsers do. *)
Module Browser.

Definition iso_local_minutes (off : Z) (s : jsstring) : option Z :=
  if (length s =? 16)%nat then Host.iso_local off (s ++ js ":00")
  else Host.iso_local off s.

Definition fixed_zone (off : Z) : Runtime :=
  {| LocalTime := fun t => t + off;
     UTC := fun t => t - off;
     StringToNumber := Host.decimal_number;
     Date_parse := iso_local_minutes off |}.

Definition utc : Runtime := fixed_zone 0.

End Browser.

Module Stored.

(** What [handleSubmit] guarantees about a booking it stores. *)
Definition valid_booking (b : Booking.t) : Prop :=
  Booking.name b <> []
  /\ trim (Booking.name b) = Booking.name b
  /\ trim (Booking.phone b) = Booking.phone b
  /\ (7 <= length (strip_non_digits (Booking.phone b)) <= 15)%nat
  /\ Rules.email_shape (Booking.email b)
  /\ Rules.between_1_and_12 (Booking.partySize b)
  /\ trim (Booking.notes b) = Booking.notes b.

(** A string that does not start with white space. *)
Definition no_lead (s : jsstring) : Prop :=
  match s with
  | c :: _ => is_space c = false
  | [] => True
  end.

End Stored.

(** * Properties *)

(** ** The matcher decides the language of a pattern *)

Module RegexFacts.
Import Regex.

Lemma nullable_lang r : nullable r = true <-> lang r [].
Proof.
  split.
  - induction r; simpl; intros H; try discriminate.
    + constructor.
    + apply andb_true_iff in H as [H1 H2].
      change (@nil N) with (@nil N ++ @nil N). constructor; auto.
    + apply orb_true_iff in H as [H|H]; [apply lang_alt_l | apply lang_alt_r]; auto.
    + constructor.
  - induction r; simpl; intros H; inversion H; subst; auto.
    + match goal with E : _ ++ _ = [] |- _ => apply app_eq_nil in E as [-> ->] end.
      rewrite IHr1, IHr2; auto.
    + rewrite IHr1; auto.
    + rewrite IHr2; auto with bool.
Qed.

Lemma deriv_complete c r s' :
  lang r s' -> forall s, s' = c :: s -> lang (deriv c r) s.
Proof.
  induction 1 as [ | p c' Hp | r1 r2 s1 s2 H1 IH1 H2 IH2 | r1 r2 s0 H0 IH
                 | r1 r2 s0 H0 IH | r | r s1 s2 H1 IH1 H2 IH2 ];
    intros s E; simpl.
  - discriminate.
  - injection E as -> <-. rewrite Hp. constructor.
  - destruct s1 as [|a s1]; simpl in E.
    + subst s2. apply nullable_lang in H1. rewrite H1.
      apply lang_alt_r. auto.
    + injection E as -> <-.
      destruct (nullable r1); [apply lang_alt_l|]; constructor; auto.
  - apply lang_alt_l; auto.
  - apply lang_alt_r; auto.
  - discriminate.
  - destruct s1 as [|a s1]; simpl in E.
    + apply (IH2 s E).
    + injection E as -> <-. constructor; auto.
Qed.

Lemma deriv_sound c r : forall s, lang (deriv c r) s -> lang r (c :: s).
Proof.
  induction r; simpl; intros s H.
  - inversion H.
  - inversion H.
  - destruct (p c) eqn:Hp; inversion H; subst. constructor; auto.
  - destruct (nullable r1) eqn:Hn.
    + inversion H; subst.
      * match goal with X : lang (Cat _ _) _ |- _ => inversion X; subst end.
        change (c :: s1 ++ s2) with ((c :: s1) ++ s2). constructor; auto.
      * change (c :: s) with ([] ++ c :: s). constructor; auto.
        apply nullable_lang; auto.
    + inversion H; subst.
      change (c :: s1 ++ s2) with ((c :: s1) ++ s2). constructor; auto.
  - inversion H; subst; [apply lang_alt_l | apply lang_alt_r]; auto.
  - inversion H; subst.
    change (c :: s1 ++ s2) with ((c :: s1) ++ s2). constructor; auto.
Qed.

Lemma matches_lang r s : matches r s = true <-> lang r s.
Proof.
  revert r. induction s as [|c s IH]; intros r; simpl.
  - apply nullable_lang.
  - rewrite IH. split.
    + apply deriv_sound.
    + intros H. eapply deriv_complete; eauto.
Qed.

Lemma lang_star_cls p s : lang (Star (Cls p)) s <-> forallb p s = true.
Proof.
  split.
  - intros H. remember (Star (Cls p)) as r eqn:Er.
    induction H; try discriminate; auto.
    injection Er as ->.
    match goal with X : lang (Cls _) _ |- _ => inversion X; subst end.
    simpl. rewrite IHlang2 by reflexivity.
    match goal with X : p _ = true |- _ => rewrite X end. reflexivity.
  - induction s as [|c s IH]; simpl; intros H.
    + constructor.
    + apply andb_true_iff in H as [Hc Hs].
      change (c :: s) with ([c] ++ s). constructor; auto. constructor; auto.
Qed.

Lemma lang_cls_cons p r s :
  lang (Cat (Cls p) r) s <-> exists c s', s = c :: s' /\ p c = true /\ lang r s'.
Proof.
  split.
  - intros H. inversion H; subst.
    match goal with X : lang (Cls _) _ |- _ => inversion X; subst end.
    eexists _, _; eauto.
  - intros (c & s' & -> & Hp & Hr).
    change (c :: s') with ([c] ++ s'). constructor; auto. constructor; auto.
Qed.

Lemma lang_plus_cls p s :
  lang (plus (Cls p)) s <-> s <> [] /\ forallb p s = true.
Proof.
  unfold plus. rewrite lang_cls_cons. split.
  - intros (c & s' & -> & Hp & Hs). apply lang_star_cls in Hs.
    split; [discriminate|]. simpl. rewrite Hp, Hs. reflexivity.
  - intros [Hne Hall]. destruct s as [|c s']; [congruence|].
    simpl in Hall. apply andb_true_iff in Hall as [Hp Hs].
    exists c, s'. rewrite lang_star_cls. auto.
Qed.

Lemma lang_exactly_cls p n : forall s,
  lang (exactly n (Cls p)) s <-> length s = n /\ forallb p s = true.
Proof.
  induction n as [|n IH]; intros s; simpl.
  - split.
    + intros H. inversion H. auto.
    + intros [Hl _]. destruct s; [constructor | discriminate].
  - rewrite lang_cls_cons. split.
    + intros (c & s' & -> & Hp & Hs). apply IH in Hs as [Hl Hs].
      simpl. rewrite Hp, Hs, Hl. auto.
    + intros [Hl Hall]. destruct s as [|c s']; [discriminate|].
      simpl in *. apply andb_true_iff in Hall as [Hp Hs].
      exists c, s'. rewrite IH. auto.
Qed.

Lemma lang_upto_cls p n : forall s,
  lang (upto n (Cls p)) s <-> (length s <= n)%nat /\ forallb p s = true.
Proof.
  induction n as [|n IH]; intros s; simpl.
  - split.
    + intros H. inversion H. auto.
    + intros [Hl _]. destruct s; [constructor | simpl in Hl; lia].
  - split.
    + intros H. inversion H; subst.
      * match goal with X : lang Eps _ |- _ => inversion X end. simpl. split; [lia|auto].
      * match goal with X : lang (Cat _ _) _ |- _ =>
          apply lang_cls_cons in X as (c & s' & -> & Hp & Hs) end.
        apply IH in Hs as [Hl Hs].
        simpl. rewrite Hp, Hs. split; [lia|auto].
    + intros [Hl Hall]. destruct s as [|c s'].
      * apply lang_alt_l. constructor.
      * apply lang_alt_r. simpl in *. apply andb_true_iff in Hall as [Hp Hs].
        apply lang_cls_cons. exists c, s'. rewrite IH. split; [auto|]. split; [auto|].
        split; [lia|auto].
Qed.

Lemma lang_between_cls p lo hi s :
  (lo <= hi)%nat ->
  lang (between lo hi (Cls p)) s <->
  (lo <= length s <= hi)%nat /\ forallb p s = true.
Proof.
  intros Hle. unfold between. split.
  - intros H. inversion H; subst.
    match goal with X : lang (exactly _ _) _ |- _ => apply lang_exactly_cls in X as [L1 A1] end.
    match goal with X : lang (upto _ _) _ |- _ => apply lang_upto_cls in X as [L2 A2] end.
    rewrite length_app, forallb_app, A1, A2. split; [lia|auto].
  - intros [Hl Hall].
    rewrite <- (firstn_skipn lo s) in Hall |- *.
    rewrite forallb_app in Hall. apply andb_true_iff in Hall as [A1 A2].
    constructor.
    + apply lang_exactly_cls. split; [|auto]. rewrite length_firstn. lia.
    + apply lang_upto_cls. split; [|auto]. rewrite length_skipn. lia.
Qed.

End RegexFacts.

(** ** Facts about the string functions *)

Module StringFacts.

Lemma strip_trimStart s : strip_non_digits (trimStart s) = strip_non_digits s.
Proof.
  induction s as [|c s IH]; simpl; [reflexivity|].
  destruct (is_space c) eqn:Hs; [|reflexivity].
  rewrite IH. unfold strip_non_digits. simpl.
  destruct (is_digit c) eqn:Hd; [|reflexivity].
  exfalso. unfold is_digit, is_space in *.
  apply andb_true_iff in Hd as [H1 H2].
  apply N.leb_le in H1, H2.
  repeat (apply orb_true_iff in Hs as [Hs|Hs]);
    repeat match goal with
    | H : (_ && _)%bool = true |- _ => apply andb_true_iff in H as [? ?]
    | H : (_ <=? _)%N = true |- _ => apply N.leb_le in H
    | H : (_ =? _)%N = true |- _ => apply N.eqb_eq in H
    end; lia.
Qed.

Lemma strip_rev s : strip_non_digits (rev s) = rev (strip_non_digits s).
Proof.
  unfold strip_non_digits. induction s as [|c s IH]; simpl; [reflexivity|].
  rewrite List.filter_app, IH. simpl. destruct (is_digit c); simpl.
  - reflexivity.
  - rewrite app_nil_r. reflexivity.
Qed.

Lemma strip_trim s : strip_non_digits (trim s) = strip_non_digits s.
Proof.
  unfold trim, trimEnd.
  rewrite strip_rev, strip_trimStart, strip_rev, rev_involutive.
  apply strip_trimStart.
Qed.

Lemma strip_all_digits s : forallb is_digit (strip_non_digits s) = true.
Proof.
  unfold strip_non_digits. induction s as [|c s IH]; simpl; [reflexivity|].
  destruct (is_digit c) eqn:Hd; simpl; [rewrite Hd|]; auto.
Qed.

Lemma phone_test s :
  Regex.test Regex.phone_re (strip_non_digits s) = true <->
  (7 <= length (strip_non_digits s) <= 15)%nat.
Proof.
  unfold Regex.test, Regex.phone_re.
  rewrite RegexFacts.matches_lang, RegexFacts.lang_between_cls by lia.
  pose proof (strip_all_digits s). tauto.
Qed.

Lemma lang_cat_inv r1 r2 s :
  Regex.lang (Regex.Cat r1 r2) s <->
  exists s1 s2, s = s1 ++ s2 /\ Regex.lang r1 s1 /\ Regex.lang r2 s2.
Proof.
  split.
  - intros H. inversion H; subst. eauto.
  - intros (s1 & s2 & -> & H1 & H2). constructor; auto.
Qed.

Lemma email_test s :
  Regex.test Regex.email_re s = true <-> Rules.email_shape s.
Proof.
  unfold Regex.test, Regex.email_re, Rules.email_shape.
  rewrite RegexFacts.matches_lang. split.
  - intros H.
    apply lang_cat_inv in H as (l & s1 & -> & Hl & H).
    apply RegexFacts.lang_cls_cons in H as (a & s2 & -> & Ha & H).
    apply lang_cat_inv in H as (d & s3 & -> & Hd & H).
    apply RegexFacts.lang_cls_cons in H as (b & t & -> & Hb & Ht).
    apply N.eqb_eq in Ha, Hb. subst a b.
    apply RegexFacts.lang_plus_cls in Hl as [? Al], Hd as [? Ad], Ht as [? At'].
    exists l, d, t. rewrite !forallb_app, Al, Ad, At'. auto.
  - intros (l & d & t & -> & Hl & Hd & Ht & Hall).
    rewrite !forallb_app in Hall.
    apply andb_true_iff in Hall as [Al Hall].
    apply andb_true_iff in Hall as [Ad At'].
    constructor; [apply RegexFacts.lang_plus_cls; auto|].
    apply RegexFacts.lang_cls_cons. eexists _, _. split; [reflexivity|].
    split; [reflexivity|].
    constructor; [apply RegexFacts.lang_plus_cls; auto|].
    apply RegexFacts.lang_cls_cons. eexists _, _. split; [reflexivity|].
    split; [reflexivity|].
    apply RegexFacts.lang_plus_cls; auto.
Qed.

End StringFacts.

(** ** What [validate] reports *)

Module ValidateFacts.
Import Rules.

Lemma lookup_set_if (cond : bool) (key msg k : jsstring)
    (e : gmap jsstring jsstring) :
  set_if cond key msg e !! k =
  if cond && bool_decide (key = k) then Some msg else e !! k.
Proof.
  unfold set_if. destruct cond; simpl; [|reflexivity].
  case_bool_decide as Hk.
  - subst. apply lookup_insert_eq.
  - apply lookup_insert_ne. exact Hk.
Qed.

Section WithRuntime.
Context {rt : Runtime}.

Lemma validation_errors_lookup r now store c :
  validation_errors now store c !! field r =
  if failing r now store c then Some (message r) else None.
Proof.
  unfold validation_errors. rewrite !lookup_set_if, lookup_empty.
  destruct r; simpl;
    repeat match goal with
    | |- context [bool_decide (?a = ?b)] =>
        let v := eval vm_compute in (bool_decide (a = b)) in
        change (bool_decide (a = b)) with v
    end;
    rewrite ?andb_false_r, ?andb_true_r;
    repeat match goal with
    | |- context [if ?b then _ else _] => destruct b; try reflexivity
    end.
Qed.

Lemma validation_errors_other k now store c :
  (forall r, k <> field r) -> validation_errors now store c !! k = None.
Proof.
  intros H. unfold validation_errors. rewrite !lookup_set_if, lookup_empty.
  pose proof (H Name). pose proof (H Phone). pose proof (H Email).
  pose proof (H DateTime). pose proof (H PartySize). pose proof (H Availability).
  simpl in *.
  rewrite !bool_decide_eq_false_2 by congruence.
  rewrite !andb_false_r. reflexivity.
Qed.

Lemma validation_errors_keys k m now store c :
  validation_errors now store c !! k = Some m ->
  exists r, k = field r /\ m = message r /\ failing r now store c = true.
Proof.
  intros H.
  assert (exists r, k = field r) as [r ->].
  { destruct (decide (k = field Name)); [eauto|].
    destruct (decide (k = field Phone)); [eauto|].
    destruct (decide (k = field Email)); [eauto|].
    destruct (decide (k = field DateTime)); [eauto|].
    destruct (decide (k = field PartySize)); [eauto|].
    destruct (decide (k = field Availability)); [eauto|].
    rewrite validation_errors_other in H; [discriminate|].
    intros []; assumption. }
  rewrite validation_errors_lookup in H.
  exists r. destruct (failing r now store c); [|discriminate].
  injection H as <-. auto.
Qed.

Lemma validation_errors_empty now store c :
  validation_errors now store c = ∅ <->
  forall r, failing r now store c = false.
Proof.
  split.
  - intros H r. pose proof (validation_errors_lookup r now store c) as L.
    rewrite H, lookup_empty in L.
    destruct (failing r now store c); [discriminate|reflexivity].
  - intros H. apply map_eq. intros k. rewrite lookup_empty.
    destruct (validation_errors now store c !! k) as [m|] eqn:E; [|reflexivity].
    apply validation_errors_keys in E as (r & _ & _ & Hr).
    rewrite H in Hr. discriminate.
Qed.

Lemma failing_violated r now store c :
  failing r now store c = true <-> violated r now store c.
Proof.
  destruct r; unfold failing, violated.
  - destruct (trim (Form.name c)); simpl; split; congruence.
  - rewrite negb_true_iff, <- not_true_iff_false, StringFacts.phone_test.
    reflexivity.
  - rewrite negb_true_iff, <- not_true_iff_false, StringFacts.email_test.
    reflexivity.
  - unfold selected, gracePeriod.
    destruct (Date_of_string _) as [t|];
      destruct (Date_of_number (now - 5 * 60 * 1000)) as [limit|]; simpl.
    + rewrite Z.ltb_lt. split.
      * intros H. eexists _, _. eauto.
      * intros (t' & l' & [= <-] & [= <-] & H). exact H.
    + split; [discriminate|]. intros (? & ? & _ & [=] & _).
    + split; [discriminate|]. intros (? & ? & [=] & _).
    + split; [discriminate|]. intros (? & ? & [=] & _).
  - rewrite negb_true_iff, <- not_true_iff_false, andb_true_iff.
    unfold between_1_and_12, num_ge, num_le, of_Z.
    destruct (Number (Form.partySize c)) as [ | | |q]; simpl;
      try (split; [tauto | intros _ [? ?]; discriminate]).
    rewrite !Qle_bool_iff. reflexivity.
  - rewrite Z.leb_le. lia.
Qed.

Lemma not_failing_violated r now store c :
  failing r now store c = false <-> ~ violated r now store c.
Proof. rewrite <- failing_violated, not_true_iff_false. reflexivity. Qed.

Lemma handleSubmit_rejected amb st :
  validation_errors (clock amb) (bookings st) (form st) <> ∅ ->
  handleSubmit amb st =
  mkState (bookings st) (form st)
    (validation_errors (clock amb) (bookings st) (form st)) None.
Proof.
  intros H. unfold handleSubmit, validate. simpl.
  rewrite bool_decide_eq_false_2; [reflexivity|].
  intros E. apply map_size_empty_iff in E. contradiction.
Qed.

Lemma handleSubmit_accepted amb st :
  validation_errors (clock amb) (bookings st) (form st) = ∅ ->
  handleSubmit amb st =
  mkState (newBooking amb (form st) :: bookings st)
    (Form.mk [] [] [] (Form.date (form st)) (Form.time (form st))
       (Form.partySize (form st)) [])
    ∅
    (Some (js "Booking confirmed for " ++ Form.date (form st) ++ js " at "
           ++ Form.time (form st))).
Proof.
  intros H. unfold handleSubmit, validate. simpl.
  rewrite H. reflexivity.
Qed.

Lemma handleSubmit_errors amb st :
  errors (handleSubmit amb st) =
  validation_errors (clock amb) (bookings st) (form st).
Proof.
  destruct (decide (validation_errors (clock amb) (bookings st) (form st) = ∅))
    as [E|E].
  - rewrite handleSubmit_accepted by exact E. simpl. congruence.
  - rewrite handleSubmit_rejected by exact E. reflexivity.
Qed.

End WithRuntime.

End ValidateFacts.

(** ** Availability *)

Module Availability.
Import Rules.

Lemma countBookings_slot_count store date time :
  countBookings store date time = Z.of_nat (slot_count store date time).
Proof.
  unfold countBookings. f_equal.
  induction store as [|b store IH]; simpl; [reflexivity|].
  rewrite filter_cons. destruct (decide _); simpl; rewrite IH; reflexivity.
Qed.

Lemma slot_count_cons b store date time :
  slot_count (b :: store) date time =
  ((if decide (Booking.date b = date /\ Booking.time b = time) then 1 else 0)
   + slot_count store date time)%nat.
Proof. reflexivity. Qed.

(** C1. For every store, date and time, [availableTables] is the larger of 0
    and 6 minus the number of bookings whose date and time are the given
    strings; it is never negative, whatever that number is. *)
Theorem availableTables_capacity_minus_count store date time :
  availableTables store date time
  = Z.max 0 (6 - Z.of_nat (slot_count store date time))
  /\ 0 <= availableTables store date time.
Proof.
  unfold availableTables, MAX_TABLES_PER_SLOT.
  rewrite countBookings_slot_count. split; [reflexivity | lia].
Qed.

Example availableTables_overfull :
  availableTables (Examples.guest (js "g") :: Examples.full_slot)
    (js "2025-01-01") (js "18:00") = 0.
Proof. reflexivity. Qed.

End Availability.

(** ** Cancellation *)

Module Cancellation.

Lemma filter_id_noop id (store : list Booking.t) :
  (forall x, x ∈ store -> Booking.id x <> id) ->
  filter (fun x => Booking.id x <> id) store = store.
Proof.
  induction store as [|b store IH]; intros H; [reflexivity|].
  rewrite filter_cons_True by (apply H; left).
  f_equal. apply IH. intros x Hx. apply H. right. exact Hx.
Qed.

(** C10. After a confirmed [handleCancel(id)] the store holds the entries whose
    id differs from [id], in their previous order, and no other; when no entry
    has that id the state is returned as it was; cancelling the same id a second
    time changes nothing more. *)
Theorem handleCancel_removes_matching id st :
  bookings (handleCancel true id st)
  = filter (fun x => Booking.id x <> id) (bookings st)
  /\ (forall x, x ∈ bookings (handleCancel true id st) <->
                x ∈ bookings st /\ Booking.id x <> id)
  /\ sublist (bookings (handleCancel true id st)) (bookings st)
  /\ ((forall x, x ∈ bookings st -> Booking.id x <> id) ->
      handleCancel true id st = st)
  /\ handleCancel true id (handleCancel true id st) = handleCancel true id st.
Proof.
  simpl. split; [reflexivity|]. split; [|split; [|split]].
  - intros x. rewrite list_elem_of_filter. tauto.
  - apply sublist_filter.
  - intros H. unfold handleCancel. simpl.
    rewrite filter_id_noop by exact H. destruct st; reflexivity.
  - unfold handleCancel. simpl. f_equal.
    apply filter_id_noop. intros x Hx.
    apply list_elem_of_filter in Hx as [Hx _]. exact Hx.
Qed.

(** Cancelling an id that is not in the store, on a store of six bookings. *)
Lemma handleCancel_absent_id_example :
  handleCancel true (js "zz") (Examples.idle Examples.full_slot Examples.ana)
  = Examples.idle Examples.full_slot Examples.ana.
Proof.
  apply (proj1 (proj2 (proj2 (proj2
    (handleCancel_removes_matching (js "zz")
       (Examples.idle Examples.full_slot Examples.ana)))))).
  intros x Hx. vm_compute in Hx.
  repeat (apply elem_of_cons in Hx as [-> | Hx]; [discriminate|]).
  apply elem_of_nil in Hx. contradiction.
Defined.

End Cancellation.

(** ** Admission *)

Module Admission.
Import Rules ValidateFacts.

Section WithRuntime.
Context {rt : Runtime}.

Lemma violated_rejects r amb st :
  violated r (clock amb) (bookings st) (form st) ->
  validation_errors (clock amb) (bookings st) (form st) <> ∅.
Proof.
  intros Hv E. apply failing_violated in Hv.
  apply validation_errors_empty with (r := r) in E. congruence.
Qed.

Lemma none_violated_accepts amb st :
  (forall r, ~ violated r (clock amb) (bookings st) (form st)) ->
  validation_errors (clock amb) (bookings st) (form st) = ∅.
Proof.
  intros H. apply validation_errors_empty. intros r.
  apply not_failing_violated, H.
Qed.

Lemma selected_time_value c t : selected c = Some t -> is_time_value t.
Proof.
  unfold selected, Date_of_string, TimeClip, is_time_value.
  destruct (Date_parse _) as [v|]; [|discriminate].
  destruct (Z.leb_spec (Z.abs v) maxTime); [|discriminate].
  intros [= <-]. lia.
Qed.

Lemma full_slot_violates (store : list Booking.t) c now :
  (6 <= slot_count store (Form.date c) (Form.time c))%nat ->
  violated Availability now store c.
Proof.
  intros H. simpl. unfold availableTables, MAX_TABLES_PER_SLOT.
  rewrite Availability.countBookings_slot_count. lia.
Qed.

Lemma violated_reported r amb st :
  errors (handleSubmit amb st) !! field r = Some (message r) <->
  violated r (clock amb) (bookings st) (form st).
Proof.
  rewrite handleSubmit_errors, validation_errors_lookup, <- failing_violated.
  destruct (failing r _ _ _); split; congruence.
Qed.

Lemma violated_keeps_store r amb st :
  violated r (clock amb) (bookings st) (form st) ->
  bookings (handleSubmit amb st) = bookings st /\
  success (handleSubmit amb st) = None.
Proof.
  intros Hv.
  rewrite handleSubmit_rejected by (eapply violated_rejects; eauto).
  auto.
Qed.

(** On the rules as [validate] tests them. When one of them is violated,
    [handleSubmit] adds no booking: the store is the one it started from, no
    confirmation is set and the error of the rule is reported; so it is when
    the slot of the candidate already holds six bookings or more. *)
Lemma rejected_submit_keeps_store amb st :
  (forall r, violated r (clock amb) (bookings st) (form st) ->
     bookings (handleSubmit amb st) = bookings st /\
     success (handleSubmit amb st) = None /\
     errors (handleSubmit amb st) !! field r = Some (message r))
  /\ ((6 <= slot_count (bookings st) (Form.date (form st))
              (Form.time (form st)))%nat ->
      errors (handleSubmit amb st) !! k_time = Some msg_time /\
      bookings (handleSubmit amb st) = bookings st).
Proof.
  assert (forall r, violated r (clock amb) (bookings st) (form st) ->
     bookings (handleSubmit amb st) = bookings st /\
     success (handleSubmit amb st) = None /\
     errors (handleSubmit amb st) !! field r = Some (message r)) as Hrule.
  { intros r Hv. destruct (violated_keeps_store r amb st Hv) as [Hb Hs].
    apply violated_reported in Hv. auto. }
  split; [exact Hrule|].
  intros Hfull.
  destruct (Hrule Availability) as (Hb & _ & He).
  { apply full_slot_violates. exact Hfull. }
  auto.
Qed.

(** C4. When no rule is violated, [handleSubmit] puts one new booking in front
    of the store: the length grows by one, the entries that were there follow
    in their previous order, the new entry carries the candidate's date and
    time, and the number of available tables of that slot goes down by one. *)
Theorem accepted_submit_prepends_booking amb st :
  (forall r, ~ violated r (clock amb) (bookings st) (form st)) ->
  bookings (handleSubmit amb st) = newBooking amb (form st) :: bookings st
  /\ length (bookings (handleSubmit amb st)) = S (length (bookings st))
  /\ (forall i, bookings (handleSubmit amb st) !! S i = bookings st !! i)
  /\ Booking.date (newBooking amb (form st)) = Form.date (form st)
  /\ Booking.time (newBooking amb (form st)) = Form.time (form st)
  /\ availableTables (bookings (handleSubmit amb st))
       (Form.date (form st)) (Form.time (form st))
     = availableTables (bookings st)
         (Form.date (form st)) (Form.time (form st)) - 1.
Proof.
  intros Hok.
  rewrite handleSubmit_accepted by (apply none_violated_accepts; exact Hok).
  simpl. repeat split.
  pose proof (Hok Availability) as Ha. simpl in Ha.
  unfold availableTables, MAX_TABLES_PER_SLOT in *.
  rewrite !Availability.countBookings_slot_count in *.
  rewrite Availability.slot_count_cons. simpl.
  rewrite decide_True by auto. lia.
Qed.

(** On the rules as [validate] tests them: the error object holds the message
    of every violated rule under the key of that rule, and nothing else; when
    the email rule is the only one violated, the error object is the single
    entry for [email] and the store is unchanged. *)
Lemma validate_reports_violated_rules amb st :
  (forall r, errors (handleSubmit amb st) !! field r = Some (message r) <->
             violated r (clock amb) (bookings st) (form st))
  /\ (forall k m, errors (handleSubmit amb st) !! k = Some m ->
        exists r, k = field r /\ m = message r /\
                  violated r (clock amb) (bookings st) (form st))
  /\ (violated Email (clock amb) (bookings st) (form st) ->
      (forall r, r <> Email ->
                 ~ violated r (clock amb) (bookings st) (form st)) ->
      errors (handleSubmit amb st) = {[ k_email := msg_email ]} /\
      bookings (handleSubmit amb st) = bookings st).
Proof.
  split; [exact (fun r => violated_reported r amb st)|].
  rewrite handleSubmit_errors. split.
  - intros k m H. apply validation_errors_keys in H as (r & ? & ? & Hr).
    exists r. rewrite <- failing_violated. auto.
  - intros He Hothers. split.
    + apply map_eq. intros k.
      destruct (decide (k = k_email)) as [->|Hk].
      * rewrite lookup_singleton_eq.
        change k_email with (field Email).
        rewrite validation_errors_lookup.
        apply failing_violated in He. rewrite He. reflexivity.
      * rewrite lookup_singleton_ne by congruence.
        destruct (validation_errors _ _ _ !! k) as [m|] eqn:E; [|reflexivity].
        apply validation_errors_keys in E as (r & -> & _ & Hr).
        apply failing_violated in Hr.
        assert (r <> Email) as Hne by (intros ->; apply Hk; reflexivity).
        destruct (Hothers r Hne Hr).
    + rewrite handleSubmit_rejected by (eapply violated_rejects; eauto).
      reflexivity.
Qed.

(** *** The rules of the specification against the tests of [validate] *)

Lemma integer_is_between n :
  SpecRules.integer_1_to_12 n -> between_1_and_12 n.
Proof.
  destruct n as [ | | |q]; simpl; try tauto.
  intros (k & E & Hk). rewrite E. unfold Qle. simpl. lia.
Qed.

Lemma violated_fails r now store c :
  violated r now store c -> SpecRules.fails r now store c.
Proof.
  destruct r; simpl; try tauto.
  intros Hv Hi. apply Hv, integer_is_between, Hi.
Qed.

Lemma fails_violated r now store c :
  SpecRules.fails r now store c ->
  ~ (r = PartySize /\ SpecRules.fractional_party c) ->
  violated r now store c.
Proof.
  destruct r; simpl; try tauto.
  intros Hf Hex Hb. apply Hex. split; [reflexivity|]. split; assumption.
Qed.

(** C3, amended. When a rule of the specification fails, [handleSubmit] adds
    no booking, sets no confirmation and reports the error of the rule, with
    one exception: a party size between 1 and 12 that is not an integer fails
    the rule of the specification, which [validate] does not test. In
    particular, when the slot of the candidate already holds six bookings or
    more, the slot-full error is reported under [time] and the store is
    unchanged. *)
Theorem failed_rule_keeps_store amb st :
  (forall r, SpecRules.fails r (clock amb) (bookings st) (form st) ->
     ~ (r = PartySize /\ SpecRules.fractional_party (form st)) ->
     bookings (handleSubmit amb st) = bookings st /\
     success (handleSubmit amb st) = None /\
     errors (handleSubmit amb st) !! field r = Some (message r))
  /\ ((6 <= slot_count (bookings st) (Form.date (form st))
              (Form.time (form st)))%nat ->
      errors (handleSubmit amb st) !! k_time = Some msg_time /\
      bookings (handleSubmit amb st) = bookings st).
Proof.
  split.
  - intros r Hf Hex.
    pose proof (fails_violated r _ _ _ Hf Hex) as Hv.
    destruct (violated_keeps_store r amb st Hv) as [Hb Hs].
    apply violated_reported in Hv. auto.
  - intros Hfull.
    pose proof (full_slot_violates (bookings st) (form st) (clock amb) Hfull)
      as Hv.
    destruct (violated_keeps_store Availability amb st Hv) as [Hb _].
    apply (violated_reported Availability) in Hv. auto.
Qed.

(** C5, amended. [validate] applies the six rules one after the other without
    stopping at the first failure. The error object holds the message of a
    rule, under the key of that rule, exactly when the rule of the
    specification fails, with one exception: a party size between 1 and 12
    that is not an integer fails its rule and is not reported. The error object
    holds nothing else. In particular, when the email rule is the only one that
    fails, the error object is the single entry for [email] and the store is
    unchanged. *)
Theorem validate_reports_failed_rules amb st :
  (forall r,
     errors (handleSubmit amb st) !! field r = Some (message r) <->
     SpecRules.fails r (clock amb) (bookings st) (form st)
     /\ ~ (r = PartySize /\ SpecRules.fractional_party (form st)))
  /\ (forall k m, errors (handleSubmit amb st) !! k = Some m ->
        exists r, k = field r /\ m = message r /\
                  SpecRules.fails r (clock amb) (bookings st) (form st))
  /\ (SpecRules.fails Email (clock amb) (bookings st) (form st) ->
      (forall r, r <> Email ->
                 ~ SpecRules.fails r (clock amb) (bookings st) (form st)) ->
      errors (handleSubmit amb st) = {[ k_email := msg_email ]} /\
      bookings (handleSubmit amb st) = bookings st).
Proof.
  destruct (validate_reports_violated_rules amb st) as (Hrep & Hkeys & Honly).
  split; [|split].
  - intros r. rewrite Hrep. split.
    + intros Hv. split; [apply violated_fails, Hv|].
      intros [-> [Hb _]]. apply Hv, Hb.
    + intros [Hf Hex]. apply fails_violated; assumption.
  - intros k m H. destruct (Hkeys k m H) as (r & ? & ? & Hv).
    exists r. auto using violated_fails.
  - intros He Hothers. apply Honly; [exact He|].
    intros r Hne Hv. apply (Hothers r Hne), violated_fails, Hv.
Qed.

(** C6. With a clock that holds a time value, the past-date error is reported
    exactly when the candidate's date and time form a time value that lies
    before the clock minus five minutes. A candidate ten minutes in the past is
    rejected with that error; one at or after the clock minus five minutes is
    not given that error. *)
Theorem past_date_time_rule amb st :
  is_time_value (clock amb) ->
  (errors (handleSubmit amb st) !! k_date = Some msg_date <->
   exists t, selected (form st) = Some t /\ t < clock amb - 5 * 60 * 1000)
  /\ (selected (form st) = Some (clock amb - 10 * 60 * 1000) ->
      errors (handleSubmit amb st) !! k_date = Some msg_date /\
      bookings (handleSubmit amb st) = bookings st)
  /\ (forall t, selected (form st) = Some t ->
        clock amb - 5 * 60 * 1000 <= t ->
        errors (handleSubmit amb st) !! k_date = None).
Proof.
  intros Hclock.
  assert (violated DateTime (clock amb) (bookings st) (form st) <->
          exists t, selected (form st) = Some t /\
                    t < clock amb - 5 * 60 * 1000) as Hiff.
  { simpl. unfold Date_of_number, TimeClip, gracePeriod.
    destruct (Z.leb_spec (Z.abs (clock amb - 5 * 60 * 1000)) maxTime) as [_|H].
    - split.
      + intros (t & l & Ht & [= <-] & Hlt). eauto.
      + intros (t & Ht & Hlt). eauto.
    - split.
      + intros (t & l & _ & [=] & _).
      + intros (t & Ht & Hlt). exfalso.
        apply selected_time_value in Ht.
        unfold is_time_value, maxTime in *. lia. }
  pose proof (violated_reported DateTime amb st) as Hrep.
  simpl in Hrep.
  split; [|split].
  - rewrite <- Hiff. exact Hrep.
  - intros Hsel.
    assert (violated DateTime (clock amb) (bookings st) (form st)) as Hv.
    { apply Hiff. eexists. split; [exact Hsel|lia]. }
    destruct (violated_keeps_store DateTime amb st Hv) as [Hb _].
    apply Hrep in Hv. auto.
  - intros t Hsel Hge.
    destruct (errors (handleSubmit amb st) !! k_date) as [m|] eqn:E;
      [|reflexivity].
    exfalso.
    rewrite handleSubmit_errors in E.
    apply validation_errors_keys in E as (r & Hk & _ & Hr).
    destruct r; try discriminate Hk.
    apply failing_violated, Hiff in Hr as (t' & Ht' & Hlt).
    rewrite Hsel in Ht'. injection Ht' as <-. lia.
Qed.

(** C7, amended. The booking created by an accepted submit stores
    the phone text of the form with the white space at both ends removed; the
    characters inside are kept as typed. Removing the non-digits from the stored
    text gives the digits of the input, and there are between 7 and 15 of
    them. *)
Theorem stored_phone_is_trimmed_input amb st :
  (forall r, ~ violated r (clock amb) (bookings st) (form st)) ->
  exists b,
    bookings (handleSubmit amb st) = b :: bookings st
    /\ Booking.phone b = trim (Form.phone (form st))
    /\ strip_non_digits (Booking.phone b)
       = strip_non_digits (Form.phone (form st))
    /\ (7 <= length (strip_non_digits (Booking.phone b)) <= 15)%nat.
Proof.
  intros Hok. exists (newBooking amb (form st)).
  rewrite handleSubmit_accepted by (apply none_violated_accepts; exact Hok).
  simpl. rewrite StringFacts.strip_trim.
  repeat split; try reflexivity;
    pose proof (Hok Phone) as Hp; simpl in Hp; lia.
Qed.

End WithRuntime.

(** *** The rules on the sample data *)

Lemma ana_passes store :
  (slot_count store (js "2025-01-01") (js "18:00") < 6)%nat ->
  forall r, ~ violated (rt := Host.utc) r (clock Examples.morning) store
              Examples.ana.
Proof.
  intros Hfree r. apply not_failing_violated.
  destruct r; try (vm_compute; reflexivity).
  unfold failing, availableTables, MAX_TABLES_PER_SLOT.
  rewrite Availability.countBookings_slot_count.
  change (Form.date Examples.ana) with (js "2025-01-01").
  change (Form.time Examples.ana) with (js "18:00").
  apply Z.leb_gt. lia.
Qed.

Lemma rejected_submit_witness :
  bookings (handleSubmit (rt := Host.utc) Examples.morning
              (Examples.idle Examples.full_slot Examples.ana_bad_email))
  = Examples.full_slot
  /\ (6 <= slot_count Examples.full_slot (js "2025-01-01") (js "18:00"))%nat
  /\ errors (handleSubmit (rt := Host.utc) Examples.morning
               (Examples.idle Examples.full_slot Examples.ana))
       !! k_time = Some msg_time
  /\ bookings (handleSubmit (rt := Host.utc) Examples.morning
                 (Examples.idle Examples.full_slot Examples.ana))
     = Examples.full_slot.
Proof.
  assert (6 <= slot_count Examples.full_slot (js "2025-01-01") (js "18:00"))%nat
    as H by (vm_compute; lia).
  split; [|split; [exact H|]].
  - apply (proj1 (rejected_submit_keeps_store (rt := Host.utc) Examples.morning
                    (Examples.idle Examples.full_slot Examples.ana_bad_email))
             Email).
    apply failing_violated. vm_compute. reflexivity.
  - apply (proj2 (rejected_submit_keeps_store (rt := Host.utc) Examples.morning
                    (Examples.idle Examples.full_slot Examples.ana))).
    exact H.
Defined.

Lemma accepted_submit_witness :
  bookings (handleSubmit (rt := Host.utc) Examples.morning
              (Examples.idle [] Examples.ana))
  = [newBooking (rt := Host.utc) Examples.morning Examples.ana]
  /\ availableTables
       (bookings (handleSubmit (rt := Host.utc) Examples.morning
                    (Examples.idle [] Examples.ana)))
       (js "2025-01-01") (js "18:00")
     = availableTables [] (js "2025-01-01") (js "18:00") - 1.
Proof.
  destruct (accepted_submit_prepends_booking (rt := Host.utc) Examples.morning
              (Examples.idle [] Examples.ana))
    as (Hb & _ & _ & _ & _ & Ha).
  - apply ana_passes. simpl. lia.
  - split; [exact Hb | exact Ha].
Defined.

Lemma bad_email_witness :
  errors (handleSubmit (rt := Host.utc) Examples.morning
            (Examples.idle [] Examples.ana_bad_email))
  = {[ k_email := msg_email ]}
  /\ bookings (handleSubmit (rt := Host.utc) Examples.morning
                 (Examples.idle [] Examples.ana_bad_email)) = [].
Proof.
  apply (proj2 (proj2 (validate_reports_violated_rules (rt := Host.utc)
                         Examples.morning
                         (Examples.idle [] Examples.ana_bad_email)))).
  - apply failing_violated. vm_compute. reflexivity.
  - intros r Hr. apply not_failing_violated.
    destruct r; try (vm_compute; reflexivity). contradiction.
Defined.

Lemma past_date_time_witness :
  is_time_value (clock Examples.ten_past)
  /\ errors (handleSubmit (rt := Host.utc) Examples.ten_past
               (Examples.idle [] Examples.ana)) !! k_date = Some msg_date
  /\ errors (handleSubmit (rt := Host.utc) Examples.three_past
               (Examples.idle [] Examples.ana)) !! k_date = None.
Proof.
  assert (is_time_value (clock Examples.ten_past)) as H1
    by (vm_compute; split; discriminate).
  assert (is_time_value (clock Examples.three_past)) as H2
    by (vm_compute; split; discriminate).
  split; [exact H1|]. split.
  - apply (proj1 (proj2 (past_date_time_rule (rt := Host.utc) Examples.ten_past
                           (Examples.idle [] Examples.ana) H1))).
    vm_compute. reflexivity.
  - apply (proj2 (proj2 (past_date_time_rule (rt := Host.utc)
                           Examples.three_past
                           (Examples.idle [] Examples.ana) H2))
             (Examples.at_time 18 0)).
    + vm_compute. reflexivity.
    + vm_compute. discriminate.
Defined.

Lemma ana_passes_spec store r :
  (slot_count store (js "2025-01-01") (js "18:00") < 6)%nat ->
  ~ SpecRules.fails (rt := Host.utc) r (clock Examples.morning) store
      Examples.ana.
Proof.
  intros Hfree. destruct r; try apply (ana_passes store Hfree).
  intros H. apply H. exists 3. split; [reflexivity | lia].
Qed.

Lemma failed_rule_witness :
  bookings (handleSubmit (rt := Host.utc) Examples.morning
              (Examples.idle Examples.full_slot Examples.ana_bad_email))
  = Examples.full_slot
  /\ (6 <= slot_count Examples.full_slot (js "2025-01-01") (js "18:00"))%nat
  /\ errors (handleSubmit (rt := Host.utc) Examples.morning
               (Examples.idle Examples.full_slot Examples.ana))
       !! k_time = Some msg_time
  /\ bookings (handleSubmit (rt := Host.utc) Examples.morning
                 (Examples.idle Examples.full_slot Examples.ana))
     = Examples.full_slot.
Proof.
  assert (6 <= slot_count Examples.full_slot (js "2025-01-01") (js "18:00"))%nat
    as H by (vm_compute; lia).
  split; [|split; [exact H|]].
  - apply (proj1 (failed_rule_keeps_store (rt := Host.utc) Examples.morning
                    (Examples.idle Examples.full_slot Examples.ana_bad_email))
             Email).
    + apply failing_violated. vm_compute. reflexivity.
    + intros [E _]. discriminate E.
  - apply (proj2 (failed_rule_keeps_store (rt := Host.utc) Examples.morning
                    (Examples.idle Examples.full_slot Examples.ana))).
    exact H.
Defined.

Lemma failed_email_witness :
  errors (handleSubmit (rt := Host.utc) Examples.morning
            (Examples.idle [] Examples.ana_bad_email))
  = {[ k_email := msg_email ]}
  /\ bookings (handleSubmit (rt := Host.utc) Examples.morning
                 (Examples.idle [] Examples.ana_bad_email)) = [].
Proof.
  apply (proj2 (proj2 (validate_reports_failed_rules (rt := Host.utc)
                         Examples.morning
                         (Examples.idle [] Examples.ana_bad_email)))).
  - apply failing_violated. vm_compute. reflexivity.
  - intros r Hr. destruct r; try contradiction;
      try (apply not_failing_violated; vm_compute; reflexivity).
    intros H. apply H. exists 3. split; [reflexivity | lia].
Defined.

Lemma half_is_no_integer :
  ~ SpecRules.integer_1_to_12
      (Number (rt := Host.utc) (Form.partySize Examples.ana_half)).
Proof.
  change (Number (rt := Host.utc) (Form.partySize Examples.ana_half))
    with (Fin (5 # 2)).
  intros (k & E & _). unfold Qeq in E. simpl in E. lia.
Qed.

(** C3 as first stated fails: with a party size of 2.5 the party-size rule of
    the specification (an integer from 1 to 12) fails, and the booking is
    stored, with 2.5 as its party size. *)
Lemma fractional_party_is_booked :
  SpecRules.fails (rt := Host.utc) PartySize (clock Examples.morning) []
    Examples.ana_half
  /\ bookings (handleSubmit (rt := Host.utc) Examples.morning
                 (Examples.idle [] Examples.ana_half))
     = [newBooking (rt := Host.utc) Examples.morning Examples.ana_half]
  /\ bookings (handleSubmit (rt := Host.utc) Examples.morning
                 (Examples.idle [] Examples.ana_half))
     <> bookings (Examples.idle [] Examples.ana_half)
  /\ Booking.partySize
       (newBooking (rt := Host.utc) Examples.morning Examples.ana_half)
     = Fin (5 # 2).
Proof.
  split; [exact half_is_no_integer|].
  split; [vm_compute; reflexivity|].
  split; [vm_compute; discriminate | reflexivity].
Qed.

(** C5 as first stated fails: with a party size of 2.5 the party-size rule of
    the specification fails, and the error object has no entry for
    [partySize]; it has no entry at all. *)
Lemma fractional_party_is_not_reported :
  SpecRules.fails (rt := Host.utc) PartySize (clock Examples.morning) []
    Examples.ana_half
  /\ errors (handleSubmit (rt := Host.utc) Examples.morning
               (Examples.idle [] Examples.ana_half)) !! k_partySize = None
  /\ errors (handleSubmit (rt := Host.utc) Examples.morning
               (Examples.idle [] Examples.ana_half)) = ∅.
Proof.
  split; [exact half_is_no_integer|].
  split; vm_compute; reflexivity.
Qed.

Lemma stored_phone_witness :
  exists b,
    bookings (handleSubmit (rt := Host.utc) Examples.morning
                (Examples.idle [] Examples.ana)) = [b]
    /\ Booking.phone b = trim (js "123-456-7890")
    /\ strip_non_digits (Booking.phone b) = strip_non_digits (js "123-456-7890")
    /\ (7 <= length (strip_non_digits (Booking.phone b)) <= 15)%nat.
Proof.
  apply (stored_phone_is_trimmed_input (rt := Host.utc) Examples.morning
           (Examples.idle [] Examples.ana)).
  apply ana_passes. simpl. lia.
Defined.

(** C7 as first stated (the stored phone is a string of digits only) fails:
    the phone 123-456-7890 is accepted and stored with its two hyphens. *)
Lemma stored_phone_keeps_hyphens :
  exists b,
    bookings (handleSubmit (rt := Host.utc) Examples.morning
                (Examples.idle [] Examples.ana)) = [b]
    /\ Booking.phone b = js "123-456-7890"
    /\ forallb is_digit (Booking.phone b) = false
    /\ Booking.phone b <> strip_non_digits (Form.phone Examples.ana).
Proof.
  eexists. split; [vm_compute; reflexivity|].
  split; [reflexivity|]. split; [reflexivity|].
  vm_compute. discriminate.
Qed.

End Admission.

(** ** The capacity of a slot *)

Module Capacity.
Import Rules ValidateFacts Run.

Lemma slot_count_filter (P : Booking.t -> Prop) `{forall x, Decision (P x)}
    (store : list Booking.t) date time :
  (slot_count (filter P store) date time <= slot_count store date time)%nat.
Proof.
  induction store as [|b store IH]; simpl; [lia|].
  rewrite filter_cons. destruct (decide (P b)); simpl; lia.
Qed.

Section WithRuntime.
Context {rt : Runtime}.

(** A cancellation never raises the count of a slot. *)
Lemma handleCancel_count confirmed id st date time :
  (slot_count (bookings (handleCancel confirmed id st)) date time
   <= slot_count (bookings st) date time)%nat.
Proof.
  unfold handleCancel. destruct confirmed; simpl; [|lia].
  apply slot_count_filter.
Qed.

(** A submission raises the count of a slot only when that slot had a free
    table, and then by one. *)
Lemma handleSubmit_count amb st date time :
  slot_count (bookings (handleSubmit amb st)) date time
  = slot_count (bookings st) date time
  \/ (slot_count (bookings (handleSubmit amb st)) date time
      = S (slot_count (bookings st) date time)
      /\ 0 < availableTables (bookings st) date time).
Proof.
  destruct (decide (validation_errors (clock amb) (bookings st) (form st) = ∅))
    as [E|E].
  - rewrite handleSubmit_accepted by exact E. simpl.
    destruct (decide _) as [[<- <-]|]; [right|left; reflexivity].
    split; [reflexivity|].
    pose proof (proj1 (validation_errors_empty _ _ _) E Availability) as Ha.
    simpl in Ha. apply Z.leb_gt in Ha. exact Ha.
  - rewrite handleSubmit_rejected by exact E. left. reflexivity.
Qed.

Lemma step_keeps_capacity st st' :
  step st st' ->
  (forall date time, (slot_count (bookings st) date time <= 6)%nat) ->
  forall date time, (slot_count (bookings st') date time <= 6)%nat.
Proof.
  intros Hstep Hinv date time. destruct Hstep as [st f e s|st amb|st c id].
  - apply Hinv.
  - destruct (handleSubmit_count amb st date time) as [->|[-> Hfree]].
    + apply Hinv.
    + unfold availableTables, MAX_TABLES_PER_SLOT in Hfree.
      rewrite Availability.countBookings_slot_count in Hfree. lia.
  - etransitivity; [apply handleCancel_count | apply Hinv].
Qed.

(** C2. In every state reached from an empty store by form edits, submissions
    and cancellations, each date and time has at most six bookings. *)
Theorem reachable_within_capacity st :
  reachable st ->
  forall date time, (slot_count (bookings st) date time <= 6)%nat.
Proof.
  induction 1 as [f e s|st st' _ IH Hstep].
  - intros date time. simpl. lia.
  - eapply step_keeps_capacity; eauto.
Qed.

End WithRuntime.

Lemma repeated_submit_reachable n :
  reachable (rt := Host.utc) (Examples.submit_times n (Examples.idle [] Examples.ana)).
Proof.
  induction n as [|n IH]; simpl.
  - constructor.
  - eapply reachable_step; [|apply step_submit].
    eapply reachable_step; [exact IH|apply step_edit].
Defined.

Lemma reachable_within_capacity_witness :
  (slot_count (bookings (Examples.submit_times 7 (Examples.idle [] Examples.ana)))
     (js "2025-01-01") (js "18:00") <= 6)%nat.
Proof.
  apply (reachable_within_capacity (rt := Host.utc)).
  apply (repeated_submit_reachable 7).
Defined.

Example seven_submissions_fill_the_slot :
  slot_count (bookings (Examples.submit_times 7 (Examples.idle [] Examples.ana)))
    (js "2025-01-01") (js "18:00") = 6%nat.
Proof. vm_compute. reflexivity. Qed.

End Capacity.

(** ** Slots *)

Module SlotFacts.
Import Slot.

Lemma range_check (f : Z -> bool) (n : Z) :
  forallb f (seqZ 0 n) = true -> forall m, 0 <= m < n -> f m = true.
Proof.
  intros H m Hm. rewrite forallb_forall in H. apply H.
  apply list_elem_of_In, elem_of_seqZ. lia.
Qed.

Lemma same_eq a b : same a b = true -> a = b.
Proof. apply bool_decide_eq_true_1. Qed.

Lemma hhmm_digits m : 0 <= m < 1440 -> hhmm m = digits_of m.
Proof.
  intros Hm. apply same_eq.
  apply (range_check (fun m => same (hhmm m) (digits_of m)) 1440);
    [vm_compute; reflexivity | exact Hm].
Qed.

Lemma minutes_hhmm m : 0 <= m < 1440 -> minutes (hhmm m) = Some m.
Proof.
  intros Hm.
  pose proof (range_check reads_back 1440 ltac:(vm_compute; reflexivity) m Hm)
    as H.
  unfold reads_back in H. destruct (minutes (hhmm m)); [|discriminate].
  apply Z.eqb_eq in H. congruence.
Qed.

Lemma is_digit_range c : is_digit c = true -> 0 <= digit c <= 9.
Proof.
  unfold is_digit, digit. intros H. apply andb_true_iff in H as [H1 H2].
  apply N.leb_le in H1, H2. lia.
Qed.

Lemma digit_back c : is_digit c = true -> Z.to_N (48 + digit c) = c.
Proof. intros H. apply is_digit_range in H. unfold digit in *. lia. Qed.

Lemma minutes_inv s m :
  minutes s = Some m -> 0 <= m < 1440 /\ s = hhmm m.
Proof.
  unfold minutes.
  destruct s as [|a [|b [|c [|d [|e [|]]]]]]; try discriminate.
  destruct (_ && _) eqn:H; [|discriminate]. intros [= <-].
  do 6 (apply andb_true_iff in H as [H ?]).
  repeat match goal with
         | X : is_digit _ = true |- _ =>
             pose proof (is_digit_range _ X); apply digit_back in X
         | X : (_ <? _) = true |- _ => apply Z.ltb_lt in X
         | X : (_ =? _)%N = true |- _ => apply N.eqb_eq in X
         end.
  subst c.
  assert (0 <= (digit a * 10 + digit b) * 60 + (digit d * 10 + digit e) < 1440)
    as Hm by lia.
  split; [exact Hm|].
  rewrite (hhmm_digits _ Hm). unfold digits_of.
  set (m := (digit a * 10 + digit b) * 60 + (digit d * 10 + digit e)) in *.
  assert (m / 600 = digit a) as -> by (subst m; Z.div_mod_to_equations; lia).
  assert ((m / 60) mod 10 = digit b) as ->
    by (subst m; Z.div_mod_to_equations; lia).
  assert ((m mod 60) / 10 = digit d) as ->
    by (subst m; Z.div_mod_to_equations; lia).
  assert (m mod 10 = digit e) as -> by (subst m; Z.div_mod_to_equations; lia).
  congruence.
Qed.

Lemma hhmm_well_formed m : 0 <= m < 1440 -> well_formed (hhmm m).
Proof. intros Hm. unfold well_formed. rewrite minutes_hhmm by exact Hm. discriminate. Qed.

(** *** The order of strings *)

Lemma str_ltb_trans a : forall b c,
  str_ltb a b = true -> str_ltb b c = true -> str_ltb a c = true.
Proof.
  induction a as [|x a IH]; intros [|y b] [|z c]; simpl; try discriminate; auto.
  intros H1 H2.
  apply orb_true_iff in H1 as [H1|H1]; apply orb_true_iff in H2 as [H2|H2];
    repeat match goal with
           | X : (_ && _)%bool = true |- _ => apply andb_true_iff in X as [? ?]
           | X : (_ <? _)%N = true |- _ => apply N.ltb_lt in X
           | X : (_ =? _)%N = true |- _ => apply N.eqb_eq in X
           end; subst; apply orb_true_iff.
  - left. apply N.ltb_lt. lia.
  - left. apply N.ltb_lt. lia.
  - left. apply N.ltb_lt. lia.
  - right. rewrite N.eqb_refl. simpl. eauto.
Qed.

Lemma str_ltb_irrefl a : str_ltb a a = false.
Proof.
  induction a as [|x a IH]; simpl; [reflexivity|].
  rewrite N.ltb_irrefl, N.eqb_refl, IH. reflexivity.
Qed.

Lemma str_ltb_asym a b : str_ltb a b = true -> str_ltb b a = false.
Proof.
  intros H. destruct (str_ltb b a) eqn:E; [|reflexivity].
  pose proof (str_ltb_trans _ _ _ H E) as F.
  rewrite str_ltb_irrefl in F. discriminate.
Qed.

Lemma hhmm_next m :
  0 <= m < 1439 -> str_ltb (hhmm m) (hhmm (m + 1)) = true.
Proof.
  apply (range_check next_is_later 1439). vm_compute. reflexivity.
Qed.

(** On well-formed slots the order of strings is the order of the minutes. *)
Lemma hhmm_mono a b :
  0 <= a -> a < b -> b < 1440 -> str_ltb (hhmm a) (hhmm b) = true.
Proof.
  intros Ha Hab Hb.
  replace b with (a + 1 + Z.of_nat (Z.to_nat (b - a - 1))) in * by lia.
  induction (Z.to_nat (b - a - 1)) as [|n IH].
  - rewrite Z.add_0_r. apply hhmm_next. lia.
  - eapply str_ltb_trans; [apply IH; lia|].
    replace (a + 1 + Z.of_nat (S n)) with (a + 1 + Z.of_nat n + 1) by lia.
    apply hhmm_next. lia.
Qed.

Lemma hhmm_not_after a b :
  0 <= a -> a <= b -> b < 1440 -> str_ltb (hhmm b) (hhmm a) = false.
Proof.
  intros Ha Hab Hb. destruct (Z.eq_dec a b) as [->|Hne].
  - apply str_ltb_irrefl.
  - apply str_ltb_asym, hhmm_mono; lia.
Qed.

(** *** Dates in a zone at a fixed offset *)

Lemma truncate_of_Z z : truncate (inject_Z z) = z.
Proof. unfold truncate. simpl. apply Z.quot_1_r. Qed.

Lemma truncate_sum a b : truncate (inject_Z a + inject_Z b) = a + b.
Proof. unfold truncate. simpl. rewrite Z.quot_1_r. lia. Qed.

Lemma local_parts d m :
  0 <= m < 1440 ->
  Day (d * msPerDay + m * msPerMinute) = d
  /\ HourFromTime (d * msPerDay + m * msPerMinute) = m / 60
  /\ MinFromTime (d * msPerDay + m * msPerMinute) = m mod 60
  /\ SecFromTime (d * msPerDay + m * msPerMinute) = 0
  /\ msFromTime (d * msPerDay + m * msPerMinute) = 0.
Proof.
  intros Hm.
  unfold Day, HourFromTime, MinFromTime, SecFromTime, msFromTime,
    msPerDay, msPerHour, msPerMinute, msPerSecond.
  repeat split; Z.div_mod_to_equations; lia.
Qed.

Section FixedZone.
Context {rt : Runtime}.

Lemma setHours_fixed off now h mi :
  fixed_offset rt off ->
  setHours (Some now) (of_Z h) (of_Z mi) (of_Z 0) (of_Z 0)
  = TimeClip (Some (Day (now + off) * msPerDay
                    + (h * 60 + mi) * msPerMinute - off)).
Proof.
  intros [HL HU]. unfold setHours, MakeTime, MakeDate, of_Z. simpl.
  rewrite HL, HU, !truncate_of_Z.
  match goal with
  | |- (if Z.abs ?a <=? _ then _ else _) = (if Z.abs ?b <=? _ then _ else _) =>
      replace a with b; [reflexivity|]
  end.
  unfold msPerHour, msPerMinute, msPerSecond. lia.
Qed.

Lemma setMinutes_fixed off d m k :
  fixed_offset rt off ->
  0 <= m < 1440 ->
  setMinutes (Some (d * msPerDay + m * msPerMinute - off))
    (num_add (to_num (Some (m mod 60))) (of_Z k))
  = TimeClip (Some (d * msPerDay + (m + k) * msPerMinute - off)).
Proof.
  intros [HL HU] Hm. unfold setMinutes. rewrite HL.
  replace (d * msPerDay + m * msPerMinute - off + off)
    with (d * msPerDay + m * msPerMinute) by lia.
  destruct (local_parts d m Hm) as (-> & -> & _ & -> & ->).
  unfold MakeTime, MakeDate, of_Z, to_num, num_add, of_Z. simpl.
  rewrite HU, !truncate_of_Z, truncate_sum.
  match goal with
  | |- (if Z.abs ?a <=? _ then _ else _) = (if Z.abs ?b <=? _ then _ else _) =>
      replace a with b; [reflexivity|]
  end.
  unfold msPerHour, msPerMinute, msPerSecond.
  Z.div_mod_to_equations. lia.
Qed.

Lemma getters_fixed off d m :
  fixed_offset rt off ->
  0 <= m < 1440 ->
  getHours (Some (d * msPerDay + m * msPerMinute - off)) = Some (m / 60)
  /\ getMinutes (Some (d * msPerDay + m * msPerMinute - off))
     = Some (m mod 60).
Proof.
  intros [HL HU] Hm. unfold getHours, getMinutes. rewrite HL.
  replace (d * msPerDay + m * msPerMinute - off + off)
    with (d * msPerDay + m * msPerMinute) by lia.
  destruct (local_parts d m Hm) as (_ & -> & -> & _ & _). auto.
Qed.

(** The loop, started at minute [m] of local day [d] with the end at minute
    [mc] of the same day, emits the grid from [m]. *)
Lemma slots_loop_grid off d mc k :
  fixed_offset rt off ->
  0 < k ->
  0 <= mc < 1440 ->
  (forall m, 0 <= m < 1440 ->
     Z.abs (d * msPerDay + m * msPerMinute - off) <= maxTime) ->
  forall n m acc fuel,
    0 <= m ->
    (n = 0%nat \/ m + (Z.of_nat n - 1) * k <= mc) ->
    mc < m + Z.of_nat n * k ->
    (n < fuel)%nat ->
    slots_loop fuel (of_Z k)
      (TimeClip (Some (d * msPerDay + m * msPerMinute - off)))
      (Some (d * msPerDay + mc * msPerMinute - off)) acc
    = Some (acc ++ List.map hhmm (grid n m k)).
Proof.
  intros Hz Hk Hmc Hrange.
  induction n as [|n IH]; intros m acc fuel Hm Hin Hout Hfuel;
    (destruct fuel as [|fuel]; [lia|]).
  - simpl. rewrite app_nil_r.
    destruct (Z.abs _ <=? maxTime); simpl; [|reflexivity].
    rewrite (proj2 (Z.leb_gt _ _)); [reflexivity|].
    unfold msPerMinute. lia.
  - assert (m <= mc) as Hle by (destruct Hin as [|]; [discriminate|nia]).
    assert (0 <= m < 1440) as Hm' by lia.
    unfold TimeClip at 1.
    rewrite (proj2 (Z.leb_le _ _) (Hrange m Hm')).
    cbn [slots_loop].
    replace (date_le (Some (d * msPerDay + m * msPerMinute - off))
               (Some (d * msPerDay + mc * msPerMinute - off))) with true
      by (symmetry; apply Z.leb_le; unfold msPerMinute; lia).
    destruct (getters_fixed off d m Hz Hm') as [-> ->].
    rewrite (setMinutes_fixed off d m k Hz Hm').
    rewrite IH by lia.
    rewrite <- app_assoc. reflexivity.
Qed.

Lemma digit_not_colon c : is_digit c = true -> (c =? colon)%N = false.
Proof.
  intros H. apply is_digit_range in H. unfold digit, colon in *.
  apply N.eqb_neq. lia.
Qed.

Lemma hours_minutes_slot s m :
  reads_two_digits rt ->
  minutes s = Some m ->
  hours_minutes s = (of_Z (m / 60), of_Z (m mod 60)).
Proof.
  intros Hread. unfold minutes.
  destruct s as [|a [|b [|c [|d [|e [|]]]]]]; try discriminate.
  destruct (_ && _) eqn:H; [|discriminate]. intros [= <-].
  do 6 (apply andb_true_iff in H as [H ?]).
  repeat match goal with
         | X : (_ <? _) = true |- _ => apply Z.ltb_lt in X
         | X : (_ =? _)%N = true |- _ => apply N.eqb_eq in X
         end.
  subst c. unfold hours_minutes. simpl.
  rewrite !digit_not_colon by assumption. simpl.
  rewrite !Hread by assumption.
  repeat match goal with
         | X : is_digit _ = true |- _ => apply is_digit_range in X
         end.
  f_equal; f_equal; Z.div_mod_to_equations; lia.
Qed.

End FixedZone.

(** *** The grid *)

Lemma grid_elem n : forall m k x,
  x ∈ grid n m k <-> exists i, 0 <= i < Z.of_nat n /\ x = m + i * k.
Proof.
  induction n as [|n IH]; intros m k x; simpl.
  - split; [intros H; inversion H | intros (i & ? & _); lia].
  - rewrite elem_of_cons, IH. split.
    + intros [->|(i & Hi & ->)].
      * exists 0. lia.
      * exists (i + 1). lia.
    + intros (i & Hi & ->). destruct (Z.eq_dec i 0) as [->|Hne].
      * left. lia.
      * right. exists (i - 1). lia.
Qed.

Lemma grid_increasing n : forall m k,
  0 <= m -> 0 < k ->
  (n = 0%nat \/ m + (Z.of_nat n - 1) * k < 1440) ->
  increasing (List.map hhmm (grid n m k)) = true.
Proof.
  induction n as [|n IH]; intros m k Hm Hk Hin; [reflexivity|].
  destruct n as [|n']; [reflexivity|].
  change (str_ltb (hhmm m) (hhmm (m + k))
          && increasing (List.map hhmm (grid (S n') (m + k) k)) = true).
  rewrite IH by lia. rewrite hhmm_mono by nia. reflexivity.
Qed.

Lemma grid_between_count mo mc k :
  mo <= mc -> 0 < k ->
  let n := Z.to_nat ((mc - mo) / k + 1) in
  (0 < n)%nat
  /\ mo + (Z.of_nat n - 1) * k <= mc
  /\ mc < mo + Z.of_nat n * k.
Proof.
  intros Hle Hk n. subst n.
  assert (0 <= (mc - mo) / k) by (apply Z.div_pos; lia).
  rewrite Z2Nat.id by lia.
  pose proof (Z.mul_div_le (mc - mo) k Hk).
  pose proof (Z.mul_succ_div_gt (mc - mo) k Hk).
  repeat split; lia.
Qed.

End SlotFacts.

(** ** [generateTimeSlots] *)

Module SlotProperties.
Import Slot SlotFacts.

(** More fuel does not change what the loop returns. *)
Lemma slots_loop_more_fuel {rt : Runtime} fuel : forall step base end_ acc l fuel',
  slots_loop fuel step base end_ acc = Some l ->
  (fuel <= fuel')%nat ->
  slots_loop fuel' step base end_ acc = Some l.
Proof.
  induction fuel as [|fuel IH]; intros step base end_ acc l fuel' H Hle;
    [discriminate|].
  destruct fuel' as [|fuel']; [lia|].
  simpl in *. destruct (date_le base end_); [|exact H].
  eapply IH; [exact H | lia].
Qed.

Lemma day_range now off m :
  ordinary_clock now ->
  0 <= m < 1440 ->
  Z.abs (Day (now + off) * msPerDay + m * msPerMinute - off) <= maxTime.
Proof.
  unfold ordinary_clock, Day, msPerDay, msPerMinute, maxTime.
  intros Hnow Hm. Z.div_mod_to_equations. lia.
Qed.

(** X1. When both clock reads fall on the same local day of a zone at a fixed
    offset, the slots are the texts of the minutes of the grid that starts at
    [open], a value that depends on [open], [close] and the step only; they
    are strictly increasing and well formed, start with [open], do not pass
    [close], and reach [close] when it is on the grid. *)
Theorem generateTimeSlots_same_day {rt : Runtime} off now1 now2
    open close mo mc k :
  fixed_offset rt off ->
  reads_two_digits rt ->
  ordinary_clock now1 ->
  Day (LocalTime now1) = Day (LocalTime now2) ->
  minutes open = Some mo ->
  minutes close = Some mc ->
  mo <= mc ->
  0 < k ->
  (forall fuel, (1440 < fuel)%nat ->
     generateTimeSlots fuel now1 now2 open close (of_Z k)
     = Some (List.map hhmm (grid_between mo mc k)))
  /\ increasing (List.map hhmm (grid_between mo mc k)) = true
  /\ Forall well_formed (List.map hhmm (grid_between mo mc k))
  /\ head (List.map hhmm (grid_between mo mc k)) = Some open
  /\ Forall (fun s => str_ltb close s = false)
       (List.map hhmm (grid_between mo mc k))
  /\ ((mc - mo) mod k = 0 -> close ∈ List.map hhmm (grid_between mo mc k)).
Proof.
  intros Hz Hread Hnow Hday Hopen Hclose Hle Hk.
  pose proof (minutes_inv _ _ Hopen) as [Hmo Eo].
  pose proof (minutes_inv _ _ Hclose) as [Hmc Ec].
  destruct (grid_between_count mo mc k Hle Hk) as (Hn0 & Hlast & Hnext).
  unfold grid_between.
  set (n := Z.to_nat ((mc - mo) / k + 1)) in *.
  assert (Z.of_nat n <= 1440) as Hn by nia.
  assert (forall x, x ∈ grid n mo k -> mo <= x <= mc) as Hbound.
  { intros x Hx. apply grid_elem in Hx as (i & Hi & ->). nia. }
  split; [|split; [|split; [|split; [|split]]]].
  - intros fuel Hfuel. unfold generateTimeSlots.
    rewrite (hours_minutes_slot open mo Hread Hopen).
    rewrite (hours_minutes_slot close mc Hread Hclose).
    rewrite !(setHours_fixed off) by exact Hz.
    destruct Hz as [HL HU]. rewrite !HL in Hday. rewrite <- Hday.
    replace (mo / 60 * 60 + mo mod 60) with mo
      by (Z.div_mod_to_equations; lia).
    replace (mc / 60 * 60 + mc mod 60) with mc
      by (Z.div_mod_to_equations; lia).
    unfold TimeClip at 2.
    rewrite (proj2 (Z.leb_le _ _) (day_range now1 off mc Hnow Hmc)).
    rewrite (slots_loop_grid off (Day (now1 + off)) mc k) with (n := n);
      try lia; try reflexivity.
    + split; assumption.
    + intros m Hm. apply day_range; assumption.
  - apply grid_increasing; lia.
  - apply Forall_forall. intros s Hs.
    apply list_elem_of_In, in_map_iff in Hs as (x & <- & Hx).
    apply list_elem_of_In in Hx.
    apply hhmm_well_formed. specialize (Hbound x Hx). lia.
  - destruct n as [|n']; [lia|]. simpl. congruence.
  - apply Forall_forall. intros s Hs.
    apply list_elem_of_In, in_map_iff in Hs as (x & <- & Hx).
    apply list_elem_of_In in Hx.
    specialize (Hbound x Hx). rewrite Ec. apply hhmm_not_after; lia.
  - intros Hgrid. rewrite Ec. apply list_elem_of_In, in_map_iff.
    exists mc. split; [reflexivity|]. apply list_elem_of_In, grid_elem.
    exists ((mc - mo) / k). split.
    + assert (0 <= (mc - mo) / k) by (apply Z.div_pos; lia). lia.
    + pose proof (Z.div_mod (mc - mo) k). lia.
Qed.

Lemma generateTimeSlots_more_fuel {rt : Runtime} fuel fuel' now1 now2
    open close step l :
  generateTimeSlots fuel now1 now2 open close step = Some l ->
  (fuel <= fuel')%nat ->
  generateTimeSlots fuel' now1 now2 open close step = Some l.
Proof.
  unfold generateTimeSlots.
  destruct (hours_minutes open), (hours_minutes close).
  apply slots_loop_more_fuel.
Qed.

(** The sample host is a zone at a fixed offset that reads numerals. *)
Lemma host_fixed_offset off : fixed_offset (Host.fixed_zone off) off.
Proof. split; reflexivity. Qed.

Lemma host_reads_two_digits off : reads_two_digits (Host.fixed_zone off).
Proof.
  intros a b Ha Hb. simpl.
  assert (forall c, is_digit c = true ->
            c = 48%N \/ c = 49%N \/ c = 50%N \/ c = 51%N \/ c = 52%N \/
            c = 53%N \/ c = 54%N \/ c = 55%N \/ c = 56%N \/ c = 57%N) as Hcases.
  { intros c Hc. apply is_digit_range in Hc. unfold digit in Hc. lia. }
  destruct (Hcases a Ha) as [->|[->|[->|[->|[->|[->|[->|[->|[->| ->]]]]]]]]];
    destruct (Hcases b Hb) as [->|[->|[->|[->|[->|[->|[->|[->|[->| ->]]]]]]]]];
    reflexivity.
Qed.

(** The default call, made at noon in a zone five and a half hours ahead of
    UTC. *)
Lemma generateTimeSlots_same_day_example :
  generateTimeSlots (rt := Host.fixed_zone 19800000) 1441
    Examples.noon Examples.noon (js "11:00") (js "22:00") (of_Z 30)
  = Some (List.map hhmm (grid_between 660 1320 30))
  /\ increasing (List.map hhmm (grid_between 660 1320 30)) = true
  /\ js "22:00" ∈ List.map hhmm (grid_between 660 1320 30).
Proof.
  destruct (generateTimeSlots_same_day (rt := Host.fixed_zone 19800000)
              19800000 Examples.noon Examples.noon (js "11:00") (js "22:00")
              660 1320 30)
    as (Hrun & Hinc & _ & _ & _ & Hclose).
  - apply host_fixed_offset.
  - apply host_reads_two_digits.
  - vm_compute. split; discriminate.
  - reflexivity.
  - reflexivity.
  - reflexivity.
  - lia.
  - lia.
  - split; [apply Hrun; lia|]. split; [exact Hinc|].
    apply Hclose. reflexivity.
Defined.

(** C8, on a call that straddles midnight. In the zone UTC, when the first
    [new Date()] reads 2025-01-01T23:59:59.999 and the second reads
    2025-01-02T00:00:00.000, [generateTimeSlots("11:00", "22:00", 30)] returns
    71 slots: those from 11:00 to 23:30 of the first day, then those from 00:00
    to 22:00 of the next. The sequence is not increasing and passes 22:00. *)
Theorem generateTimeSlots_across_midnight :
  forall extra : nat,
  exists slots,
    generateTimeSlots (rt := Host.utc) (72 + extra)
      Examples.last_ms Examples.midnight (js "11:00") (js "22:00") (of_Z 30)
    = Some slots
    /\ length slots = 71%nat
    /\ slots !! 25%nat = Some (js "23:30")
    /\ slots !! 26%nat = Some (js "00:00")
    /\ increasing slots = false
    /\ existsb (str_ltb (js "22:00")) slots = true.
Proof.
  intros extra.
  destruct (generateTimeSlots (rt := Host.utc) 72 Examples.last_ms
              Examples.midnight (js "11:00") (js "22:00") (of_Z 30))
    as [slots|] eqn:E; [|vm_compute in E; discriminate].
  exists slots. split.
  - eapply generateTimeSlots_more_fuel; [exact E|lia].
  - vm_compute in E. injection E as <-. repeat split; reflexivity.
Qed.

(** C9, on two calls with the same arguments. In the zone UTC the call
    [generateTimeSlots("11:00", "22:00", 30)] returns 23 slots when both clock
    reads show noon, and 71 slots when the first read is the last millisecond
    of a day and the second is the midnight that follows: the result depends on
    the clock. *)
Theorem generateTimeSlots_depends_on_clock :
  forall extra : nat,
  exists at_noon at_midnight,
    generateTimeSlots (rt := Host.utc) (72 + extra)
      Examples.noon Examples.noon (js "11:00") (js "22:00") (of_Z 30)
    = Some at_noon
    /\ generateTimeSlots (rt := Host.utc) (72 + extra)
         Examples.last_ms Examples.midnight (js "11:00") (js "22:00") (of_Z 30)
       = Some at_midnight
    /\ length at_noon = 23%nat
    /\ length at_midnight = 71%nat
    /\ at_noon <> at_midnight.
Proof.
  intros extra.
  destruct (generateTimeSlots (rt := Host.utc) 72 Examples.noon
              Examples.noon (js "11:00") (js "22:00") (of_Z 30))
    as [l1|] eqn:E1; [|vm_compute in E1; discriminate].
  destruct (generateTimeSlots (rt := Host.utc) 72 Examples.last_ms
              Examples.midnight (js "11:00") (js "22:00") (of_Z 30))
    as [l2|] eqn:E2; [|vm_compute in E2; discriminate].
  exists l1, l2.
  split; [eapply generateTimeSlots_more_fuel; [exact E1|lia]|].
  split; [eapply generateTimeSlots_more_fuel; [exact E2|lia]|].
  vm_compute in E1, E2. injection E1 as <-. injection E2 as <-.
  split; [reflexivity|]. split; [reflexivity|]. discriminate.
Qed.

End SlotProperties.

(** ** [generateTimeSlots] at the edges of its domain *)

Module SlotEdges.
Import Slot SlotFacts SlotProperties.

Section SameDay.
Context {rt : Runtime}.
Variables (off now1 now2 : Z) (open close : jsstring) (mo mc : Z).
Hypothesis Hzone : fixed_offset rt off.
Hypothesis Hread : reads_two_digits rt.
Hypothesis Hnow : ordinary_clock now1.
Hypothesis Hday : Day (LocalTime now1) = Day (LocalTime now2).
Hypothesis Hopen : minutes open = Some mo.
Hypothesis Hclose : minutes close = Some mc.

(** Local midnight of the day of the call, as a UTC time value. *)
Let day0 : Z := Day (now1 + off) * msPerDay.

Lemma same_day_start fuel step :
  generateTimeSlots fuel now1 now2 open close step
  = slots_loop fuel step
      (Some (day0 + mo * msPerMinute - off))
      (Some (day0 + mc * msPerMinute - off)) [].
Proof using All.
  pose proof (minutes_inv _ _ Hopen) as [Hmo _].
  pose proof (minutes_inv _ _ Hclose) as [Hmc _].
  unfold generateTimeSlots, day0.
  rewrite (hours_minutes_slot open mo Hread Hopen).
  rewrite (hours_minutes_slot close mc Hread Hclose).
  rewrite !(setHours_fixed off) by exact Hzone.
  destruct Hzone as [HL HU]. rewrite !HL in Hday. rewrite <- Hday.
  replace (mo / 60 * 60 + mo mod 60) with mo by (Z.div_mod_to_equations; lia).
  replace (mc / 60 * 60 + mc mod 60) with mc by (Z.div_mod_to_equations; lia).
  unfold TimeClip.
  rewrite (proj2 (Z.leb_le _ _) (day_range now1 off mo Hnow Hmo)).
  rewrite (proj2 (Z.leb_le _ _) (day_range now1 off mc Hnow Hmc)).
  reflexivity.
Qed.

Lemma same_day_run k n fuel :
  0 < k ->
  (n = 0%nat \/ mo + (Z.of_nat n - 1) * k <= mc) ->
  mc < mo + Z.of_nat n * k ->
  (n < fuel)%nat ->
  generateTimeSlots fuel now1 now2 open close (of_Z k)
  = Some (List.map hhmm (grid n mo k)).
Proof using All.
  intros Hk Hin Hout Hfuel.
  pose proof (minutes_inv _ _ Hopen) as [Hmo _].
  pose proof (minutes_inv _ _ Hclose) as [Hmc _].
  rewrite same_day_start. unfold day0.
  replace (Some (Day (now1 + off) * msPerDay + mo * msPerMinute - off))
    with (TimeClip (Some (Day (now1 + off) * msPerDay + mo * msPerMinute - off)))
    by (unfold TimeClip;
        rewrite (proj2 (Z.leb_le _ _) (day_range now1 off mo Hnow Hmo));
        reflexivity).
  rewrite (slots_loop_grid off (Day (now1 + off)) mc k) with (n := n);
    try lia; try reflexivity; try assumption.
  intros m Hm. apply day_range; assumption.
Qed.

(** X3. In a zone at a fixed offset from UTC (no daylight-saving change), with
    a [Number] that reads two-digit numerals as their value, both clock reads
    on the same local day, the first of them at least a day away from the ends
    of the range of time values, and [open] and [close] of the form HH:MM:
    with [close] before [open] the loop body never runs and the result is
    empty, whatever the step; with [close] equal to [open] and a positive
    integer step it runs once and the result is [[open]]. *)
Theorem generateTimeSlots_close_not_after_open :
  (mc < mo ->
   forall fuel step, (0 < fuel)%nat ->
     generateTimeSlots fuel now1 now2 open close step = Some [])
  /\ (mc = mo ->
      forall fuel k, (1 < fuel)%nat -> 0 < k ->
        generateTimeSlots fuel now1 now2 open close (of_Z k) = Some [open]).
Proof using All.
  split.
  - intros Hlt fuel step Hfuel. rewrite same_day_start.
    destruct fuel as [|fuel]; [lia|]. simpl.
    rewrite (proj2 (Z.leb_gt _ _)); [reflexivity|]. unfold msPerMinute. lia.
  - intros E fuel k Hfuel Hk.
    rewrite (same_day_run k 1 fuel) by lia.
    simpl. pose proof (minutes_inv _ _ Hopen) as [_ ->]. reflexivity.
Qed.

(** X2. The number of slots and the last of them. *)
Theorem generateTimeSlots_count_and_last k :
  mo <= mc ->
  0 < k ->
  exists slots,
    (forall fuel, (1440 < fuel)%nat ->
       generateTimeSlots fuel now1 now2 open close (of_Z k) = Some slots)
    /\ Z.of_nat (length slots) = (mc - mo) / k + 1
    /\ last slots = Some (hhmm (mc - (mc - mo) mod k))
    /\ (forall i, 0 <= i < (mc - mo) / k + 1 ->
          slots !! Z.to_nat i = Some (hhmm (mo + i * k))).
Proof using All.
  intros Hle Hk.
  pose proof (minutes_inv _ _ Hopen) as [Hmo _].
  pose proof (minutes_inv _ _ Hclose) as [Hmc _].
  destruct (grid_between_count mo mc k Hle Hk) as (Hn0 & Hlast & Hnext).
  set (n := Z.to_nat ((mc - mo) / k + 1)) in *.
  assert (0 <= (mc - mo) / k) as Hq by (apply Z.div_pos; lia).
  assert (forall j m, (j < n)%nat ->
            List.map hhmm (grid n m k) !! j = Some (hhmm (m + Z.of_nat j * k)))
    as Hnth.
  { clearbody n. clear. induction n as [|n IH]; intros j m Hj; [lia|].
    destruct j as [|j]; simpl.
    - f_equal. f_equal. lia.
    - rewrite IH by lia. f_equal. f_equal. lia. }
  exists (List.map hhmm (grid n mo k)).
  assert (length (List.map hhmm (grid n mo k)) = n) as Hlen.
  { rewrite length_map. clearbody n. clear. revert mo.
    induction n as [|n IH]; intros m; simpl; [reflexivity|]. rewrite IH. reflexivity. }
  split; [|split; [|split]].
  - intros fuel Hfuel. apply same_day_run; try lia. nia.
  - rewrite Hlen. subst n. lia.
  - rewrite last_lookup, Hlen.
    rewrite Hnth by lia. f_equal. f_equal.
    replace (Z.of_nat (Nat.pred n)) with ((mc - mo) / k) by (subst n; lia).
    pose proof (Z.div_mod (mc - mo) k). lia.
  - intros i Hi. rewrite Hnth by (subst n; lia).
    rewrite Z2Nat.id by lia. reflexivity.
Qed.

(** X4. Under the same assumptions (a zone at a fixed offset from UTC,
    two-digit numerals read as their value, both clock reads on the same local
    day, the first away from the ends of the range, [open] and [close] of the
    form HH:MM) and with [open] not after [close], a step of zero: [setMinutes]
    puts the date back where it was, the loop condition stays true and no
    amount of fuel brings a result. *)
Theorem generateTimeSlots_zero_step_never_returns :
  mo <= mc ->
  forall fuel, generateTimeSlots fuel now1 now2 open close (of_Z 0) = None.
Proof using All.
  intros Hle fuel.
  pose proof (minutes_inv _ _ Hopen) as [Hmo _].
  pose proof (minutes_inv _ _ Hclose) as [Hmc _].
  rewrite same_day_start. generalize (@nil jsstring) as acc.
  induction fuel as [|fuel IH]; intros acc; [reflexivity|].
  cbn [slots_loop].
  replace (date_le _ _) with true
    by (symmetry; apply Z.leb_le; unfold msPerMinute; lia).
  unfold day0 in *.
  destruct (getters_fixed off (Day (now1 + off)) mo Hzone Hmo) as [_ ->].
  rewrite (setMinutes_fixed off (Day (now1 + off)) mo 0 Hzone Hmo).
  rewrite Z.add_0_r. unfold TimeClip.
  rewrite (proj2 (Z.leb_le _ _) (day_range now1 off mo Hnow Hmo)).
  apply IH.
Qed.

(** X5. Under the same assumptions (a zone at a fixed offset from UTC,
    two-digit numerals read as their value, both clock reads on the same local
    day, the first away from the ends of the range, [open] and [close] of the
    form HH:MM) and with [open] not after [close], a step that is not a finite
    number (NaN, as when the argument is not a number, or an infinity): the
    first [setMinutes] invalidates the date and the loop stops after one slot,
    [[open]]. *)
Theorem generateTimeSlots_non_finite_step step :
  mo <= mc ->
  step = NaN \/ step = PosInf \/ step = NegInf ->
  forall fuel, (1 < fuel)%nat ->
    generateTimeSlots fuel now1 now2 open close step = Some [open].
Proof using All.
  intros Hle Hstep fuel Hfuel.
  pose proof (minutes_inv _ _ Hopen) as [Hmo Eo].
  pose proof (minutes_inv _ _ Hclose) as [Hmc _].
  rewrite same_day_start.
  destruct fuel as [|[|fuel]]; try lia.
  cbn [slots_loop].
  replace (date_le _ _) with true
    by (symmetry; apply Z.leb_le; unfold msPerMinute; lia).
  unfold day0.
  destruct (getters_fixed off (Day (now1 + off)) mo Hzone Hmo) as [-> ->].
  assert (setMinutes (Some (Day (now1 + off) * msPerDay + mo * msPerMinute - off))
            (num_add (to_num (Some (mo mod 60))) step) = None) as ->.
  { unfold setMinutes, MakeTime.
    destruct Hstep as [->|[->| ->]]; reflexivity. }
  simpl. rewrite Eo. reflexivity.
Qed.

End SameDay.

(** An [open] or a [close] without a colon has no minutes component: the date
    built from it is invalid and the result is empty, in every zone, at every
    time and for every step. *)
Lemma split_no_colon s :
  forallb (fun c => negb (c =? colon)%N) s = true -> split colon s = [s].
Proof.
  induction s as [|c s IH]; simpl; [reflexivity|].
  intros H. apply andb_true_iff in H as [Hc Hs].
  apply negb_true_iff in Hc. rewrite Hc, (IH Hs). reflexivity.
Qed.

Lemma setHours_no_minutes {rt : Runtime} d h s ms : setHours d h NaN s ms = None.
Proof. destruct d as [t|]; [|reflexivity]. simpl. destruct h; reflexivity. Qed.

Lemma hours_minutes_no_colon {rt : Runtime} s :
  forallb (fun c => negb (c =? colon)%N) s = true ->
  hours_minutes s = (StringToNumber s, NaN).
Proof. intros H. unfold hours_minutes. rewrite (split_no_colon s H). reflexivity. Qed.

(** X6. An [open] or a [close] without a colon gives the empty list, in every
    zone, at every time and for every step. *)
Theorem generateTimeSlots_without_colon {rt : Runtime} fuel now1 now2
    open close step :
  forallb (fun c => negb (c =? colon)%N) open = true
  \/ forallb (fun c => negb (c =? colon)%N) close = true ->
  (0 < fuel)%nat ->
  generateTimeSlots fuel now1 now2 open close step = Some [].
Proof.
  intros H Hfuel. unfold generateTimeSlots.
  destruct fuel as [|fuel]; [lia|].
  destruct H as [H|H]; rewrite (hours_minutes_no_colon _ H).
  - destruct (hours_minutes close). rewrite setHours_no_minutes. reflexivity.
  - destruct (hours_minutes open). rewrite setHours_no_minutes.
    cbn [slots_loop]. destruct (setHours (Some now1) _ _ _ _); reflexivity.
Qed.

(** The calls below are made at noon in a zone five and a half hours ahead of
    UTC. *)
Ltac at_noon :=
  first [ apply host_fixed_offset
        | apply host_reads_two_digits
        | (vm_compute; split; discriminate)
        | reflexivity
        | lia ].

Lemma close_not_after_open_witness :
  generateTimeSlots (rt := Host.fixed_zone 19800000) 5
    Examples.noon Examples.noon (js "22:00") (js "11:00") (of_Z 30) = Some []
  /\ generateTimeSlots (rt := Host.fixed_zone 19800000) 5
       Examples.noon Examples.noon (js "11:00") (js "11:00") (of_Z 30)
     = Some [js "11:00"].
Proof.
  split.
  - apply (proj1 (generateTimeSlots_close_not_after_open
                    (rt := Host.fixed_zone 19800000) 19800000
                    Examples.noon Examples.noon (js "22:00") (js "11:00")
                    1320 660 ltac:(at_noon) ltac:(at_noon) ltac:(at_noon)
                    ltac:(at_noon) ltac:(at_noon) ltac:(at_noon)));
      lia.
  - apply (proj2 (generateTimeSlots_close_not_after_open
                    (rt := Host.fixed_zone 19800000) 19800000
                    Examples.noon Examples.noon (js "11:00") (js "11:00")
                    660 660 ltac:(at_noon) ltac:(at_noon) ltac:(at_noon)
                    ltac:(at_noon) ltac:(at_noon) ltac:(at_noon)));
      first [reflexivity | lia].
Defined.

Lemma count_and_last_witness :
  exists slots,
    (forall fuel, (1440 < fuel)%nat ->
       generateTimeSlots (rt := Host.fixed_zone 19800000) fuel
         Examples.noon Examples.noon (js "11:00") (js "22:00") (of_Z 45)
       = Some slots)
    /\ Z.of_nat (length slots) = (1320 - 660) / 45 + 1
    /\ last slots = Some (hhmm (1320 - (1320 - 660) mod 45))
    /\ (forall i, 0 <= i < (1320 - 660) / 45 + 1 ->
          slots !! Z.to_nat i = Some (hhmm (660 + i * 45))).
Proof.
  apply (generateTimeSlots_count_and_last (rt := Host.fixed_zone 19800000)
           19800000 Examples.noon Examples.noon (js "11:00") (js "22:00")
           660 1320); at_noon.
Defined.

Lemma zero_step_witness :
  generateTimeSlots (rt := Host.fixed_zone 19800000) 2000
    Examples.noon Examples.noon (js "11:00") (js "22:00") (of_Z 0) = None.
Proof.
  apply (generateTimeSlots_zero_step_never_returns
           (rt := Host.fixed_zone 19800000) 19800000
           Examples.noon Examples.noon (js "11:00") (js "22:00") 660 1320);
    at_noon.
Defined.

Lemma non_finite_step_witness :
  generateTimeSlots (rt := Host.fixed_zone 19800000) 5
    Examples.noon Examples.noon (js "11:00") (js "22:00") NaN
  = Some [js "11:00"].
Proof.
  apply (generateTimeSlots_non_finite_step
           (rt := Host.fixed_zone 19800000) 19800000
           Examples.noon Examples.noon (js "11:00") (js "22:00") 660 1320);
    first [ at_noon | left; reflexivity ].
Defined.

Lemma without_colon_witness :
  generateTimeSlots (rt := Host.utc) 10 Examples.noon Examples.noon
    (js "1100") (js "22:00") (of_Z 30) = Some [].
Proof.
  apply (generateTimeSlots_without_colon (rt := Host.utc)).
  - left. reflexivity.
  - lia.
Defined.

End SlotEdges.

(** ** White space at the ends of a string *)

Module TrimFacts.
Import Stored.

Lemma trimStart_no_lead s : no_lead (trimStart s).
Proof.
  induction s as [|c s IH]; simpl; [exact I|].
  destruct (is_space c) eqn:E; [exact IH | exact E].
Qed.

Lemma trimStart_id s : no_lead s -> trimStart s = s.
Proof. destruct s as [|c s]; simpl; [reflexivity|]. intros ->. reflexivity. Qed.

Lemma trimStart_snoc l c :
  is_space c = false -> trimStart (l ++ [c]) = trimStart l ++ [c].
Proof.
  intros Hc. induction l as [|x l IH]; simpl; [rewrite Hc; reflexivity|].
  destruct (is_space x); [exact IH | reflexivity].
Qed.

Lemma trimEnd_no_lead s : no_lead s -> no_lead (trimEnd s).
Proof.
  destruct s as [|c s]; [intros _; exact I|]. simpl. intros Hc.
  unfold trimEnd. simpl. rewrite trimStart_snoc by exact Hc.
  rewrite rev_app_distr. simpl. exact Hc.
Qed.

Lemma trim_no_lead s : no_lead (trim s).
Proof. apply trimEnd_no_lead, trimStart_no_lead. Qed.

Lemma trim_no_trail s : no_lead (rev (trim s)).
Proof.
  unfold trim, trimEnd. rewrite rev_involutive. apply trimStart_no_lead.
Qed.

Lemma trim_id s : no_lead s -> no_lead (rev s) -> trim s = s.
Proof.
  intros H1 H2. unfold trim, trimEnd.
  rewrite (trimStart_id s H1), (trimStart_id _ H2). apply rev_involutive.
Qed.

Lemma trim_idempotent s : trim (trim s) = trim s.
Proof. apply trim_id; [apply trim_no_lead | apply trim_no_trail]. Qed.

Lemma no_space_no_lead s :
  forallb (fun c => negb (is_space c)) s = true -> no_lead s /\ no_lead (rev s).
Proof.
  intros H. split.
  - destruct s as [|c s]; [exact I|]. simpl in *.
    apply andb_true_iff in H as [H _]. apply negb_true_iff in H. exact H.
  - assert (forallb (fun c => negb (is_space c)) (rev s) = true) as Hr.
    { rewrite forallb_forall in *. intros x Hx. apply H, in_rev, Hx. }
    destruct (rev s) as [|c r]; [exact I|]. simpl in *.
    apply andb_true_iff in Hr as [Hr _]. apply negb_true_iff in Hr. exact Hr.
Qed.

Lemma email_shape_no_space s :
  Rules.email_shape s -> forallb (fun c => negb (is_space c)) s = true.
Proof.
  intros (l & d & t & -> & _ & _ & _ & Hall).
  rewrite !forallb_app in Hall.
  apply andb_true_iff in Hall as [Al Hall].
  apply andb_true_iff in Hall as [Ad At'].
  assert (forall x, forallb Regex.not_at_space x = true ->
                    forallb (fun c => negb (is_space c)) x = true) as Hweak.
  { intros x Hx. rewrite forallb_forall in *. intros c Hc.
    specialize (Hx c Hc). unfold Regex.not_at_space in Hx.
    apply negb_true_iff, orb_false_iff in Hx as [_ Hx].
    rewrite Hx. reflexivity. }
  rewrite !forallb_app. simpl.
  rewrite (Hweak l Al), (Hweak d Ad), (Hweak t At'). reflexivity.
Qed.

Lemma trim_email s : Rules.email_shape s -> trim s = s.
Proof.
  intros H. apply email_shape_no_space, no_space_no_lead in H as [H1 H2].
  apply trim_id; assumption.
Qed.

End TrimFacts.

(** ** The store under submissions and cancellations *)

Module StoreProperties.
Import Rules ValidateFacts Run Stored.

Lemma slot_count_app more store date time :
  slot_count (more ++ store) date time
  = (slot_count more date time + slot_count store date time)%nat.
Proof.
  induction more as [|b more IH]; simpl; [reflexivity|]. rewrite IH. lia.
Qed.

Lemma slot_count_none more date time :
  Forall (fun b => ~ (Booking.date b = date /\ Booking.time b = time)) more ->
  slot_count more date time = 0%nat.
Proof.
  induction 1 as [|b more Hb _ IH]; simpl; [reflexivity|].
  rewrite decide_False by exact Hb. exact IH.
Qed.

(** X9. Bookings added to a store never raise the number of available tables of a
    slot, which stays between 0 and 6, and do not change it when none of them
    is for that slot. *)
Theorem availableTables_antitone more store date time :
  availableTables (more ++ store) date time <= availableTables store date time
  /\ 0 <= availableTables (more ++ store) date time <= 6
  /\ (Forall (fun b => ~ (Booking.date b = date /\ Booking.time b = time)) more ->
      availableTables (more ++ store) date time
      = availableTables store date time).
Proof.
  unfold availableTables, MAX_TABLES_PER_SLOT.
  rewrite !Availability.countBookings_slot_count, slot_count_app.
  split; [lia|]. split; [lia|].
  intros H. rewrite (slot_count_none more date time H). reflexivity.
Qed.

Lemma availableTables_antitone_witness :
  availableTables ([Examples.guest (js "x")] ++ Examples.full_slot)
    (js "2025-01-02") (js "18:00")
  = availableTables Examples.full_slot (js "2025-01-02") (js "18:00").
Proof.
  apply (proj2 (proj2 (availableTables_antitone [Examples.guest (js "x")]
                         Examples.full_slot (js "2025-01-02") (js "18:00")))).
  repeat constructor. intros [H _]. vm_compute in H. discriminate.
Defined.

Lemma handleCancel_bookings confirmed id st :
  bookings (handleCancel confirmed id st)
  = if confirmed then filter (fun x => Booking.id x <> id) (bookings st)
    else bookings st.
Proof. destruct confirmed; reflexivity. Qed.

(** X15. Cancellations commute, never make the store longer and never lower the
    number of available tables of any slot. *)
Theorem handleCancel_commutes_and_frees a b st date time :
  handleCancel true a (handleCancel true b st)
  = handleCancel true b (handleCancel true a st)
  /\ (length (bookings (handleCancel true a st)) <= length (bookings st))%nat
  /\ availableTables (bookings st) date time
     <= availableTables (bookings (handleCancel true a st)) date time.
Proof.
  split; [|split].
  - unfold handleCancel. simpl. f_equal.
    rewrite !list_filter_filter. apply list_filter_iff. tauto.
  - simpl. apply length_filter.
  - unfold availableTables, MAX_TABLES_PER_SLOT.
    rewrite !Availability.countBookings_slot_count.
    pose proof (Capacity.slot_count_filter (fun x => Booking.id x <> a)
                  (bookings st) date time).
    simpl. lia.
Qed.

Section WithRuntime.
Context {rt : Runtime}.

(** X14. An accepted submission followed by the cancellation of the id it used
    gives back the store it started from, provided no other booking has that
    id; the available tables of every slot are then what they were. *)
Theorem submit_then_cancel_restores amb st :
  (forall r, ~ violated r (clock amb) (bookings st) (form st)) ->
  (forall x, x ∈ bookings st -> Booking.id x <> new_id amb) ->
  bookings (handleCancel true (new_id amb) (handleSubmit amb st)) = bookings st
  /\ forall date time,
       availableTables
         (bookings (handleCancel true (new_id amb) (handleSubmit amb st)))
         date time
       = availableTables (bookings st) date time.
Proof.
  intros Hok Hfresh.
  assert (bookings (handleCancel true (new_id amb) (handleSubmit amb st))
          = bookings st) as E.
  { rewrite handleSubmit_accepted
      by (apply Admission.none_violated_accepts; exact Hok).
    simpl. rewrite filter_cons_False by (simpl; tauto).
    apply Cancellation.filter_id_noop. exact Hfresh. }
  split; [exact E|]. intros date time. rewrite E. reflexivity.
Qed.

(** A submission that follows an accepted one with no typing in between, or
    that follows a click on Reset, is rejected: name, phone and email are
    reported and the store stays as it is. *)
Lemma blank_form_rejected amb store date time party notes e s :
  let st := mkState store (Form.mk [] [] [] date time party notes) e s in
  bookings (handleSubmit amb st) = store
  /\ errors (handleSubmit amb st) !! k_name = Some msg_name
  /\ errors (handleSubmit amb st) !! k_phone = Some msg_phone
  /\ errors (handleSubmit amb st) !! k_email = Some msg_email.
Proof.
  intros st.
  assert (violated Name (clock amb) (bookings st) (form st)) as Hn
    by reflexivity.
  assert (violated Phone (clock amb) (bookings st) (form st)) as Hp
    by (simpl; lia).
  assert (violated Email (clock amb) (bookings st) (form st)) as He.
  { apply failing_violated. reflexivity. }
  destruct (Admission.violated_keeps_store Name amb st Hn) as [Hb _].
  split; [exact Hb|].
  split; [apply (Admission.violated_reported Name), Hn|].
  split; [apply (Admission.violated_reported Phone), Hp|].
  apply (Admission.violated_reported Email), He.
Qed.

(** X13. A second submission with no typing after an accepted one creates no
    second booking; a submission after a click on Reset creates none either. *)
Theorem second_submit_without_typing_rejected amb amb' st :
  ((forall r, ~ violated r (clock amb) (bookings st) (form st)) ->
   bookings (handleSubmit amb' (handleSubmit amb st))
   = newBooking amb (form st) :: bookings st
   /\ errors (handleSubmit amb' (handleSubmit amb st)) !! k_name
      = Some msg_name
   /\ errors (handleSubmit amb' (handleSubmit amb st)) !! k_phone
      = Some msg_phone
   /\ errors (handleSubmit amb' (handleSubmit amb st)) !! k_email
      = Some msg_email)
  /\ bookings (handleSubmit amb' (Editing.resetClick st)) = bookings st
  /\ errors (handleSubmit amb' (Editing.resetClick st)) !! k_name
     = Some msg_name.
Proof.
  split.
  - intros Hok.
    rewrite (handleSubmit_accepted amb st)
      by (apply Admission.none_violated_accepts; exact Hok).
    apply blank_form_rejected.
  - unfold Editing.resetClick.
    pose proof (blank_form_rejected amb' (bookings st) (Form.date (form st))
                  (Form.time (form st)) (Form.partySize (form st)) [] ∅ None)
      as (Hb & Hn & _).
    split; assumption.
Qed.

(** X10. The clamp of [availableTables] at 0 is never active in a run that starts
    from an empty store: the available tables and the bookings of a slot add
    up to 6. *)
Theorem availableTables_exact_in_runs st :
  reachable st ->
  forall date time,
    availableTables (bookings st) date time
    + countBookings (bookings st) date time = 6.
Proof.
  intros Hreach.
  assert (forall date time,
            (slot_count (bookings st) date time <= 6)%nat) as Hcap.
  { induction Hreach as [f e s|st st' _ IH Hstep].
    - intros date time. simpl. lia.
    - eapply Capacity.step_keeps_capacity; eauto. }
  intros date time. specialize (Hcap date time).
  unfold availableTables, MAX_TABLES_PER_SLOT.
  rewrite Availability.countBookings_slot_count. lia.
Qed.

(** What an accepted submission stores: the texts of the form without the
    white space at their ends, the email exactly as typed, a non-empty name, a
    party size between 1 and 12. *)
Lemma accepted_booking_valid amb st :
  (forall r, ~ violated r (clock amb) (bookings st) (form st)) ->
  valid_booking (newBooking amb (form st))
  /\ Booking.email (newBooking amb (form st)) = Form.email (form st).
Proof.
  intros Hok.
  pose proof (Hok Name) as Hn. pose proof (Hok Phone) as Hp.
  pose proof (Hok Email) as He. pose proof (Hok PartySize) as Hs.
  simpl in Hn, Hp, He, Hs.
  assert (email_shape (Form.email (form st))) as Hshape.
  { destruct (Regex.test Regex.email_re (Form.email (form st))) eqn:E.
    - apply StringFacts.email_test. exact E.
    - exfalso. apply He. intros H. apply StringFacts.email_test in H. congruence. }
  assert (between_1_and_12 (Number (Form.partySize (form st)))) as Hsize.
  { pose proof (not_failing_violated PartySize (clock amb) (bookings st) (form st))
      as [_ Hf]. specialize (Hf Hs).
    destruct (failing PartySize _ _ _) eqn:E; [discriminate|].
    clear Hf. simpl in E. apply negb_false_iff, andb_true_iff in E as [E1 E2].
    unfold num_ge, num_le, of_Z in *.
    destruct (Number (Form.partySize (form st))); try discriminate.
    simpl. rewrite <- !Qle_bool_iff. auto. }
  unfold valid_booking, newBooking. simpl.
  rewrite !TrimFacts.trim_idempotent, StringFacts.strip_trim.
  rewrite (TrimFacts.trim_email _ Hshape).
  repeat split; auto; lia.
Qed.

(** X11. The booking in front of the store after an accepted submission, field
    by field: the id and the creation text that were generated, the name, the
    phone and the notes of the form without the white space at their ends, the
    email, the date and the time of the form as they are, the number read from
    the party size; and this booking is valid. *)
Theorem accepted_submit_stores_clean_booking amb st :
  (forall r, ~ violated r (clock amb) (bookings st) (form st)) ->
  exists b,
    bookings (handleSubmit amb st) = b :: bookings st
    /\ valid_booking b
    /\ Booking.id b = new_id amb
    /\ Booking.name b = trim (Form.name (form st))
    /\ Booking.phone b = trim (Form.phone (form st))
    /\ Booking.email b = Form.email (form st)
    /\ Booking.date b = Form.date (form st)
    /\ Booking.time b = Form.time (form st)
    /\ Booking.partySize b = Number (Form.partySize (form st))
    /\ Booking.notes b = trim (Form.notes (form st))
    /\ Booking.createdAt b = iso_now amb.
Proof.
  intros Hok. exists (newBooking amb (form st)).
  rewrite handleSubmit_accepted
    by (apply Admission.none_violated_accepts; exact Hok).
  destruct (accepted_booking_valid amb st Hok) as [Hv He].
  split; [reflexivity|]. split; [exact Hv|].
  repeat split; try reflexivity. exact He.
Qed.

Lemma step_keeps_valid st st' :
  step st st' ->
  Forall valid_booking (bookings st) -> Forall valid_booking (bookings st').
Proof.
  intros Hstep Hinv. destruct Hstep as [st f e s|st amb|st c id].
  - exact Hinv.
  - destruct (decide (validation_errors (clock amb) (bookings st) (form st) = ∅))
      as [E|E].
    + rewrite handleSubmit_accepted by exact E. simpl.
      constructor; [|exact Hinv].
      apply accepted_booking_valid. intros r.
      apply not_failing_violated, validation_errors_empty. exact E.
    + rewrite handleSubmit_rejected by exact E. exact Hinv.
  - rewrite handleCancel_bookings. destruct c; [|exact Hinv].
    apply Forall_forall. intros x Hx.
    apply list_elem_of_filter in Hx as [_ Hx].
    rewrite Forall_forall in Hinv. apply Hinv, Hx.
Qed.

(** X12. Every booking of a run that starts from an empty store has a non-empty
    name without white space at its ends, a phone with 7 to 15 digits, an
    email of the required shape and a party size between 1 and 12. *)
Theorem reachable_bookings_valid st :
  reachable st -> Forall valid_booking (bookings st).
Proof.
  induction 1 as [f e s|st st' _ IH Hstep].
  - constructor.
  - eapply step_keeps_valid; eauto.
Qed.

End WithRuntime.

(** X20. Whatever the outcome, [handleSubmit] keeps every booking of the store, in
    order, behind at most one new entry, and keeps the date, the time and the
    party size of the form; when it rejects, the whole form stays as typed. *)
Theorem handleSubmit_keeps_store_and_slot {rt : Runtime} amb st :
  bookings st `suffix_of` bookings (handleSubmit amb st)
  /\ (length (bookings (handleSubmit amb st)) <= S (length (bookings st)))%nat
  /\ Form.date (form (handleSubmit amb st)) = Form.date (form st)
  /\ Form.time (form (handleSubmit amb st)) = Form.time (form st)
  /\ Form.partySize (form (handleSubmit amb st)) = Form.partySize (form st)
  /\ (errors (handleSubmit amb st) <> ∅ ->
      form (handleSubmit amb st) = form st
      /\ bookings (handleSubmit amb st) = bookings st).
Proof.
  destruct (decide (validation_errors (clock amb) (bookings st) (form st) = ∅))
    as [E|E].
  - rewrite handleSubmit_accepted by exact E. simpl.
    split; [exists [newBooking amb (form st)]; reflexivity|].
    repeat split; try lia; congruence.
  - rewrite handleSubmit_rejected by exact E. simpl.
    split; [exists []; reflexivity|]. repeat split; lia.
Qed.

Lemma handleSubmit_keeps_witness :
  form (handleSubmit (rt := Host.utc) Examples.morning
          (Examples.idle Examples.full_slot Examples.ana))
  = Examples.ana
  /\ bookings (handleSubmit (rt := Host.utc) Examples.morning
                 (Examples.idle Examples.full_slot Examples.ana))
     = Examples.full_slot.
Proof.
  apply (proj2 (proj2 (proj2 (proj2 (proj2
           (handleSubmit_keeps_store_and_slot (rt := Host.utc)
              Examples.morning
              (Examples.idle Examples.full_slot Examples.ana))))))).
  vm_compute. discriminate.
Defined.

Lemma submit_then_cancel_witness :
  bookings
    (handleCancel true (new_id Examples.morning)
       (handleSubmit (rt := Host.utc) Examples.morning
          (Examples.idle [Examples.guest (js "a")] Examples.ana)))
  = [Examples.guest (js "a")].
Proof.
  apply (submit_then_cancel_restores (rt := Host.utc) Examples.morning
           (Examples.idle [Examples.guest (js "a")] Examples.ana)).
  - apply Admission.ana_passes. vm_compute. lia.
  - intros x Hx. apply list_elem_of_singleton in Hx as ->. discriminate.
Defined.

Lemma second_submit_witness :
  bookings
    (handleSubmit (rt := Host.utc) Examples.three_past
       (handleSubmit (rt := Host.utc) Examples.morning
          (Examples.idle [] Examples.ana)))
  = [newBooking (rt := Host.utc) Examples.morning Examples.ana].
Proof.
  apply (proj1 (second_submit_without_typing_rejected (rt := Host.utc)
                  Examples.morning Examples.three_past
                  (Examples.idle [] Examples.ana))).
  apply Admission.ana_passes. vm_compute. lia.
Defined.

Lemma availableTables_exact_witness :
  availableTables
    (bookings (Examples.submit_times 7 (Examples.idle [] Examples.ana)))
    (js "2025-01-01") (js "18:00")
  + countBookings
      (bookings (Examples.submit_times 7 (Examples.idle [] Examples.ana)))
      (js "2025-01-01") (js "18:00") = 6.
Proof.
  apply (availableTables_exact_in_runs (rt := Host.utc)).
  apply (Capacity.repeated_submit_reachable 7).
Defined.

Lemma clean_booking_witness :
  exists b,
    bookings (handleSubmit (rt := Host.utc) Examples.morning
                (Examples.idle [] Examples.ana)) = [b]
    /\ valid_booking b
    /\ Booking.id b = new_id Examples.morning
    /\ Booking.name b = trim (js "Ana")
    /\ Booking.phone b = trim (js "123-456-7890")
    /\ Booking.email b = js "ana@x.com"
    /\ Booking.date b = js "2025-01-01"
    /\ Booking.time b = js "18:00"
    /\ Booking.partySize b = Number (rt := Host.utc) (VStr (js "3"))
    /\ Booking.notes b = trim []
    /\ Booking.createdAt b = iso_now Examples.morning.
Proof.
  apply (accepted_submit_stores_clean_booking (rt := Host.utc)
           Examples.morning (Examples.idle [] Examples.ana)).
  apply Admission.ana_passes. vm_compute. lia.
Defined.

Lemma reachable_bookings_valid_witness :
  Forall valid_booking
    (bookings (Examples.submit_times 7 (Examples.idle [] Examples.ana))).
Proof.
  apply (reachable_bookings_valid (rt := Host.utc)).
  apply (Capacity.repeated_submit_reachable 7).
Defined.

End StoreProperties.

(** ** Editing the form *)

Module EditingFacts.
Import Editing.

Ltac by_keys :=
  repeat case_bool_decide; subst; try congruence; try reflexivity;
  try discriminate.

(** X16. [handleChange] writes the typed value into the property it names, leaves
    the other properties of the form, the store and the confirmation as they
    were, and clears the error shown for that property and no other. *)
Theorem handleChange_edits_one_field name value st :
  bookings (handleChange name value st) = bookings st
  /\ success (handleChange name value st) = success st
  /\ errors (handleChange name value st) !! name = None
  /\ (forall k, k <> name ->
        errors (handleChange name value st) !! k = errors st !! k)
  /\ (forall v, read_field name (form st) = Some v ->
        read_field name (form (handleChange name value st))
        = Some (VStr value))
  /\ (forall k, k <> name ->
        read_field k (form (handleChange name value st))
        = read_field k (form st)).
Proof.
  unfold handleChange. simpl.
  split; [reflexivity|]. split; [reflexivity|].
  split; [apply lookup_delete_eq|].
  split; [intros k Hk; apply lookup_delete_ne; congruence|].
  split.
  - intros v. unfold read_field, set_field. by_keys.
  - intros k Hk. unfold read_field, set_field. by_keys.
Qed.

Lemma handleChange_witness :
  read_field k_partySize
    (form (handleChange k_partySize (js "4")
             (Examples.idle Examples.full_slot Examples.ana)))
  = Some (VStr (js "4"))
  /\ read_field k_name
       (form (handleChange k_partySize (js "4")
                (Examples.idle Examples.full_slot Examples.ana)))
     = Some (VStr (js "Ana")).
Proof.
  destruct (handleChange_edits_one_field k_partySize (js "4")
              (Examples.idle Examples.full_slot Examples.ana))
    as (_ & _ & _ & _ & Hset & Hkeep).
  split.
  - apply (Hset (VStr (js "3"))). reflexivity.
  - rewrite (Hkeep k_name) by discriminate. reflexivity.
Defined.

(** X17. Edits of two different properties can be made in either order; of two
    edits of the same property the later one stands. *)
Theorem handleChange_composes n1 v1 n2 v2 st :
  (n1 <> n2 ->
   handleChange n1 v1 (handleChange n2 v2 st)
   = handleChange n2 v2 (handleChange n1 v1 st))
  /\ handleChange n1 v1 (handleChange n1 v2 st) = handleChange n1 v1 st.
Proof.
  destruct st as [store f e s]. destruct f.
  unfold handleChange. cbn [bookings form errors success]. split.
  - intros Hne. f_equal.
    + unfold set_field. by_keys.
    + apply delete_delete.
  - f_equal.
    + unfold set_field. by_keys.
    + apply delete_delete_eq.
Qed.

Lemma handleChange_composes_witness :
  handleChange k_name (js "Ana") (handleChange k_partySize (js "4")
    (Examples.idle [] Examples.ana_bad_email))
  = handleChange k_partySize (js "4") (handleChange k_name (js "Ana")
      (Examples.idle [] Examples.ana_bad_email)).
Proof.
  apply (proj1 (handleChange_composes k_name (js "Ana") k_partySize (js "4")
                  (Examples.idle [] Examples.ana_bad_email))).
  discriminate.
Defined.

End EditingFacts.

(** ** The list of upcoming bookings *)

Module ViewFacts.
Import View Rules ValidateFacts.

Section WithRuntime.
Context {rt : Runtime}.

Lemma filter_upcoming_sublist clock : forall l i,
  sublist (filter_upcoming clock i l) l.
Proof.
  induction l as [|b l IH]; intros i; simpl; [constructor|].
  destruct (is_upcoming (clock i) b).
  - apply sublist_skip, IH.
  - apply sublist_cons, IH.
Qed.

Lemma filter_upcoming_elem clock b : forall l i,
  b ∈ filter_upcoming clock i l <->
  exists j, l !! j = Some b /\ is_upcoming (clock (i + j)%nat) b = true.
Proof.
  induction l as [|x l IH]; intros i; simpl.
  - split; [intros H; inversion H | intros (j & H & _); discriminate].
  - destruct (is_upcoming (clock i) x) eqn:E.
    + rewrite elem_of_cons, IH. split.
      * intros [->|(j & Hj & Hu)].
        -- exists 0%nat. rewrite Nat.add_0_r. auto.
        -- exists (S j). replace (i + S j)%nat with (S i + j)%nat by lia. auto.
      * intros ([|j] & Hj & Hu); simpl in Hj.
        -- left. congruence.
        -- right. exists j. replace (S i + j)%nat with (i + S j)%nat by lia. auto.
    + rewrite IH. split.
      * intros (j & Hj & Hu). exists (S j).
        replace (i + S j)%nat with (S i + j)%nat by lia. auto.
      * intros ([|j] & Hj & Hu); simpl in Hj.
        -- injection Hj as ->. rewrite Nat.add_0_r in Hu. congruence.
        -- exists j. replace (S i + j)%nat with (i + S j)%nat by lia. auto.
Qed.

Lemma is_upcoming_spec now b :
  is_upcoming now b = true <->
  exists t, Date_of_string (Booking.date b ++ js "T" ++ Booking.time b) = Some t
            /\ now <= t.
Proof.
  unfold is_upcoming, date_ge.
  destruct (Date_of_string _) as [t|].
  - rewrite Z.leb_le. split; [eauto|]. intros (t' & [= <-] & H). exact H.
  - split; [discriminate|]. intros (t' & [=] & _).
Qed.

(** X18. The list keeps the order of the store, has at most 50 entries, and shows
    an entry only if its date and time form a date that is not before the clock
    read for that entry; a store of at most 50 entries shows every such
    entry. *)
Theorem upcomingBookings_sound_and_complete clock store :
  sublist (upcomingBookings clock store) store
  /\ (length (upcomingBookings clock store) <= 50)%nat
  /\ (forall b, b ∈ upcomingBookings clock store ->
        exists j t,
          store !! j = Some b
          /\ Date_of_string (Booking.date b ++ js "T" ++ Booking.time b)
             = Some t
          /\ clock j <= t)
  /\ ((length store <= 50)%nat ->
      forall j b t,
        store !! j = Some b ->
        Date_of_string (Booking.date b ++ js "T" ++ Booking.time b) = Some t ->
        clock j <= t ->
        b ∈ upcomingBookings clock store).
Proof.
  unfold upcomingBookings. split; [|split; [|split]].
  - etransitivity; [apply sublist_take | apply filter_upcoming_sublist].
  - rewrite length_take. lia.
  - intros b Hb. apply elem_of_take in Hb as (i & Hb & _).
    apply list_elem_of_lookup_2, filter_upcoming_elem in Hb as (j & Hj & Hu).
    apply is_upcoming_spec in Hu as (t & Ht & Hle).
    exists j, t. auto.
  - intros Hlen j b t Hj Ht Hle.
    rewrite take_ge.
    + apply filter_upcoming_elem. exists j. split; [exact Hj|].
      apply is_upcoming_spec. eauto.
    + pose proof (sublist_length _ _ (filter_upcoming_sublist clock store 0)).
      lia.
Qed.


End WithRuntime.

(** The six bookings for 18:00, looked at from noon of the same day. *)
Lemma upcomingBookings_witness :
  Examples.guest (js "c")
  ∈ upcomingBookings (rt := Browser.utc) (fun _ => Examples.noon)
      Examples.full_slot.
Proof.
  apply (proj2 (proj2 (proj2
           (upcomingBookings_sound_and_complete (rt := Browser.utc)
              (fun _ => Examples.noon) Examples.full_slot)))
         ltac:(vm_compute; lia) 2%nat (Examples.guest (js "c"))
         (Examples.at_time 18 0)).
  - reflexivity.
  - vm_compute. reflexivity.
  - vm_compute. discriminate.
Defined.


End ViewFacts.

(** ** [formatDate] *)

Module CalendarFacts.
Import Calendar.

Lemma all_from_spec f n : forall start,
  all_from f n start = true ->
  forall m, start <= m < start + Z.of_nat n -> f m = true.
Proof.
  induction n as [|n IH]; intros start H m Hm; [lia|].
  simpl in H. apply andb_true_iff in H as [H0 H1].
  destruct (Z.eq_dec m start) as [->|Hne]; [exact H0|].
  apply (IH (start + 1) H1). lia.
Qed.

Lemma DayFromYear_next y : DayFromYear (y + 1) = DayFromYear y + DaysInYear y.
Proof.
  unfold DayFromYear, DaysInYear.
  destruct (y mod 4 =? 0) eqn:E4; destruct (y mod 100 =? 0) eqn:E100;
    destruct (y mod 400 =? 0) eqn:E400; simpl;
    repeat match goal with
           | H : (_ =? _) = true |- _ => apply Z.eqb_eq in H
           | H : (_ =? _) = false |- _ => apply Z.eqb_neq in H
           end;
    Z.div_mod_to_equations; lia.
Qed.

Lemma DaysInYear_range y : 365 <= DaysInYear y <= 366.
Proof. unfold DaysInYear. destruct (_ && _); lia. Qed.

Lemma DayFromYear_mono y1 y2 : y1 < y2 -> DayFromYear y1 < DayFromYear y2.
Proof. unfold DayFromYear. intros H. Z.div_mod_to_equations. lia. Qed.

Lemma TimeFromYear_le y t : TimeFromYear y <= t <-> DayFromYear y <= Day t.
Proof.
  unfold TimeFromYear, Day, msPerDay. Z.div_mod_to_equations. lia.
Qed.

Lemma year_down_spec fuel : forall y t,
  t < TimeFromYear (y + 1) ->
  TimeFromYear (y - Z.of_nat fuel + 1) <= t ->
  TimeFromYear (year_down fuel y t) <= t < TimeFromYear (year_down fuel y t + 1).
Proof.
  induction fuel as [|fuel IH]; intros y t Hhi Hlo.
  - cbn [Z.of_nat year_down] in *. rewrite Z.sub_0_r in Hlo. lia.
  - simpl. destruct (Z.leb_spec (TimeFromYear y) t) as [H|H]; [lia|].
    apply IH.
    + replace (y - 1 + 1) with y by lia. exact H.
    + replace (y - 1 - Z.of_nat fuel + 1) with (y - Z.of_nat (S fuel) + 1) by lia.
      exact Hlo.
Qed.

Lemma YearFromTime_spec t :
  0 <= t ->
  1970 <= YearFromTime t
  /\ DayFromYear (YearFromTime t) <= Day t < DayFromYear (YearFromTime t + 1).
Proof.
  intros Ht. unfold YearFromTime.
  set (d := Day t).
  assert (0 <= d) as Hd by (subst d; unfold Day, msPerDay; Z.div_mod_to_equations; lia).
  assert (d / 366 <= d / 365) as Hq by (Z.div_mod_to_equations; lia).
  rewrite Z.max_l by lia.
  rewrite Z.abs_eq by lia.
  set (fuel := (Z.to_nat (d / 365 - d / 366) + 1)%nat).
  destruct (year_down_spec fuel (1970 + d / 365) t) as [H1 H2].
  - assert (d < DayFromYear (1970 + d / 365 + 1)) as H.
    { unfold DayFromYear. Z.div_mod_to_equations. lia. }
    subst d. unfold TimeFromYear, Day, msPerDay in *. Z.div_mod_to_equations. lia.
  - apply TimeFromYear_le. fold d.
    replace (1970 + d / 365 - Z.of_nat fuel + 1) with (1970 + d / 366)
      by (subst fuel; lia).
    unfold DayFromYear. Z.div_mod_to_equations. lia.
  - apply TimeFromYear_le in H1. fold d in H1.
    assert (d < DayFromYear (year_down fuel (1970 + d / 365) t + 1)) as H3.
    { destruct (Z.lt_ge_cases d (DayFromYear (year_down fuel (1970 + d / 365) t + 1)))
        as [|Hge]; [assumption|].
      apply TimeFromYear_le in Hge. lia. }
    split; [|lia].
    destruct (Z.lt_ge_cases (year_down fuel (1970 + d / 365) t) 1970) as [Hlt|]; [|assumption].
    exfalso.
    assert (DayFromYear (year_down fuel (1970 + d / 365) t + 1) <= DayFromYear 1970).
    { destruct (Z.eq_dec (year_down fuel (1970 + d / 365) t + 1) 1970) as [->|]; [lia|].
      apply Z.lt_le_incl, DayFromYear_mono. lia. }
    change (DayFromYear 1970) with 0 in *. lia.
Qed.

Lemma leap_year_days y : DaysInYear y = 366 <-> Host.is_leap y = true.
Proof.
  unfold DaysInYear, Host.is_leap.
  destruct (y mod 4 =? 0) eqn:E4; destruct (y mod 100 =? 0) eqn:E100;
    destruct (y mod 400 =? 0) eqn:E400; simpl; split; intros H;
    try discriminate; try reflexivity; try lia;
    repeat match goal with
           | H : (_ =? _) = true |- _ => apply Z.eqb_eq in H
           | H : (_ =? _) = false |- _ => apply Z.eqb_neq in H
           end;
    exfalso; Z.div_mod_to_equations; lia.
Qed.

Lemma InLeapYear_cases t :
  (InLeapYear t = 0 /\ DaysInYear (YearFromTime t) = 365)
  \/ (InLeapYear t = 1 /\ DaysInYear (YearFromTime t) = 366).
Proof.
  unfold InLeapYear. pose proof (DaysInYear_range (YearFromTime t)).
  destruct (Z.eqb_spec (DaysInYear (YearFromTime t)) 366); [right|left]; lia.
Qed.

Lemma DayWithinYear_range t :
  0 <= t -> 0 <= DayWithinYear t < 365 + InLeapYear t.
Proof.
  intros Ht. destruct (YearFromTime_spec t Ht) as (_ & H1 & H2).
  rewrite DayFromYear_next in H2. unfold DayWithinYear.
  destruct (InLeapYear_cases t) as [[-> E]|[-> E]]; lia.
Qed.

Lemma year_text_reads_back y :
  1970 <= y <= 9999 -> read_year (String_of_Z y) = Some y.
Proof.
  intros Hy.
  pose proof (all_from_spec year_reads_back (Z.to_nat 8030) 1970
                ltac:(vm_compute; reflexivity) y ltac:(lia)) as H.
  unfold year_reads_back in H. destruct (read_year _); [|discriminate].
  apply Z.eqb_eq in H. congruence.
Qed.

Lemma year_text_length y : 1970 <= y <= 9999 -> length (String_of_Z y) = 4%nat.
Proof.
  intros Hy. pose proof (year_text_reads_back y Hy) as H.
  unfold read_year in H. destruct (Nat.eqb_spec (length (String_of_Z y)) 4); [assumption|discriminate].
Qed.

Lemma year_text_next y :
  1970 <= y < 9999 -> Slot.str_ltb (String_of_Z y) (String_of_Z (y + 1)) = true.
Proof.
  intros Hy.
  apply (all_from_spec next_year_later (Z.to_nat 8029) 1970 ltac:(vm_compute; reflexivity)).
  lia.
Qed.

Lemma year_text_mono y1 y2 :
  1970 <= y1 -> y1 < y2 -> y2 <= 9999 ->
  Slot.str_ltb (String_of_Z y1) (String_of_Z y2) = true.
Proof.
  intros H1 H12 H2.
  replace y2 with (y1 + 1 + Z.of_nat (Z.to_nat (y2 - y1 - 1))) in * by lia.
  induction (Z.to_nat (y2 - y1 - 1)) as [|n IH].
  - rewrite Z.add_0_r. apply year_text_next. lia.
  - eapply SlotFacts.str_ltb_trans; [apply IH; lia|].
    replace (y1 + 1 + Z.of_nat (S n)) with (y1 + 1 + Z.of_nat n + 1) by lia.
    apply year_text_next. lia.
Qed.

Lemma leap_two_cases leap : leap = 0 \/ leap = 1 -> forall d (P : Z -> Z -> bool),
  all_from (P 0) 365 0 = true -> all_from (P 1) 366 0 = true ->
  0 <= d < 365 + leap -> P leap d = true.
Proof.
  intros [-> | ->] d P H0 H1 Hd.
  - apply (all_from_spec (P 0) 365 0 H0). lia.
  - apply (all_from_spec (P 1) 366 0 H1). lia.
Qed.

Lemma month_day_text_reads_back leap d :
  leap = 0 \/ leap = 1 -> 0 <= d < 365 + leap ->
  month_day_reads_back leap d = true.
Proof.
  intros Hl Hd.
  apply (leap_two_cases leap Hl d month_day_reads_back);
    [vm_compute; reflexivity | vm_compute; reflexivity | exact Hd].
Qed.

Lemma month_day_text_next leap d :
  leap = 0 \/ leap = 1 -> 0 <= d < 364 + leap ->
  Slot.str_ltb (md_text leap d) (md_text leap (d + 1)) = true.
Proof.
  intros [-> | ->] Hd.
  - apply (all_from_spec (next_day_later 0) 364 0 ltac:(vm_compute; reflexivity)). lia.
  - apply (all_from_spec (next_day_later 1) 365 0 ltac:(vm_compute; reflexivity)). lia.
Qed.

Lemma month_day_text_mono leap d1 d2 :
  leap = 0 \/ leap = 1 -> 0 <= d1 -> d1 < d2 -> d2 < 365 + leap ->
  Slot.str_ltb (md_text leap d1) (md_text leap d2) = true.
Proof.
  intros Hl H1 H12 H2.
  replace d2 with (d1 + 1 + Z.of_nat (Z.to_nat (d2 - d1 - 1))) in * by lia.
  induction (Z.to_nat (d2 - d1 - 1)) as [|n IH].
  - rewrite Z.add_0_r. apply month_day_text_next; [assumption|lia].
  - eapply SlotFacts.str_ltb_trans; [apply IH; lia|].
    replace (d1 + 1 + Z.of_nat (S n)) with (d1 + 1 + Z.of_nat n + 1) by lia.
    apply month_day_text_next; [assumption|lia].
Qed.

Lemma str_ltb_longer_prefix p : forall q x y,
  length p = length q -> Slot.str_ltb p q = true ->
  Slot.str_ltb (p ++ x) (q ++ y) = true.
Proof.
  induction p as [|a p IH]; intros [|b q] x y Hlen H; try discriminate.
  simpl in *. apply orb_true_iff in H as [H|H]; [rewrite H; reflexivity|].
  apply andb_true_iff in H as [E H]. rewrite E, (IH q x y) by (auto; lia).
  apply orb_true_r.
Qed.

Lemma str_ltb_same_prefix p x y :
  Slot.str_ltb (p ++ x) (p ++ y) = Slot.str_ltb x y.
Proof.
  induction p as [|a p IH]; simpl; [reflexivity|].
  rewrite N.ltb_irrefl, N.eqb_refl, IH. reflexivity.
Qed.

Lemma DayFromYear_le y1 y2 : y1 <= y2 -> DayFromYear y1 <= DayFromYear y2.
Proof.
  intros H. destruct (Z.eq_dec y1 y2) as [->|]; [lia|].
  apply Z.lt_le_incl, DayFromYear_mono. lia.
Qed.

Lemma year_unique d y y' :
  DayFromYear y <= d < DayFromYear (y + 1) ->
  DayFromYear y' <= d < DayFromYear (y' + 1) ->
  y = y'.
Proof.
  intros H H'.
  destruct (Z.lt_trichotomy y y') as [Hlt|[->|Hgt]]; [|reflexivity|].
  - pose proof (DayFromYear_le (y + 1) y' ltac:(lia)). lia.
  - pose proof (DayFromYear_le (y' + 1) y ltac:(lia)). lia.
Qed.

Lemma year_before_10000 t :
  0 <= t < TimeFromYear 10000 -> 1970 <= YearFromTime t <= 9999.
Proof.
  intros [H0 H1]. destruct (YearFromTime_spec t H0) as (Hy & Hd & _).
  split; [exact Hy|].
  destruct (Z.lt_ge_cases (YearFromTime t) 10000) as [|Hge]; [lia|].
  pose proof (DayFromYear_le 10000 (YearFromTime t) Hge).
  assert (TimeFromYear 10000 <= t) by (apply TimeFromYear_le; lia). lia.
Qed.

Section WithRuntime.
Context {rt : Runtime}.

Lemma formatDate_text t :
  formatDate (Some t)
  = String_of_Z (YearFromTime (LocalTime t)) ++ js "-"
    ++ md_text (InLeapYear (LocalTime t)) (DayWithinYear (LocalTime t)).
Proof. reflexivity. Qed.

(** X7. For a local time from 1970 through 9999, [formatDate] gives ten code
    units that read as the year, the month (counted from 1) and the day of the
    date, the day being one of that month. *)
Theorem formatDate_reads_back t :
  0 <= LocalTime t < TimeFromYear 10000 ->
  exists y m d,
    getFullYear (Some t) = Some y
    /\ getMonth (Some t) = Some (m - 1)
    /\ getDate (Some t) = Some d
    /\ iso_date (formatDate (Some t)) = Some (y, m, d)
    /\ length (formatDate (Some t)) = 10%nat
    /\ 1970 <= y <= 9999.
Proof.
  intros Ht. set (lt := LocalTime t) in *.
  pose proof (year_before_10000 lt Ht) as Hy.
  pose proof (DayWithinYear_range lt (proj1 Ht)) as Hd.
  pose proof (year_text_reads_back _ Hy) as Hyear.
  pose proof (year_text_length _ Hy) as Hlen.
  assert (InLeapYear lt = 0 \/ InLeapYear lt = 1) as Hl
    by (destruct (InLeapYear_cases lt) as [[-> _]|[-> _]]; auto).
  pose proof (month_day_text_reads_back _ _ Hl Hd) as Hmd.
  exists (YearFromTime lt), (MonthFromTime lt + 1), (DateFromTime lt).
  split; [reflexivity|].
  split; [simpl; fold lt; f_equal; lia|].
  split; [reflexivity|].
  rewrite formatDate_text. fold lt.
  unfold month_day_reads_back in Hmd.
  destruct (read_month_day (md_text (InLeapYear lt) (DayWithinYear lt)))
    as [[m dd]|] eqn:Emd; [|discriminate].
  do 5 (apply andb_true_iff in Hmd as [Hmd ?]).
  repeat match goal with
         | X : (_ =? _) = true |- _ => apply Z.eqb_eq in X
         | X : (_ <=? _) = true |- _ => apply Z.leb_le in X
         end.
  assert (length (md_text (InLeapYear lt) (DayWithinYear lt)) = 5%nat) as Hlen5.
  { unfold read_month_day in Emd.
    destruct (md_text (InLeapYear lt) (DayWithinYear lt))
      as [|? [|? [|? [|? [|? [|]]]]]]; try discriminate. reflexivity. }
  destruct (String_of_Z (YearFromTime lt)) as [|a [|b [|c [|e [|]]]]] eqn:EY;
    try discriminate Hlen.
  split; [|split; [simpl; rewrite Hlen5; reflexivity | exact Hy]].
  unfold iso_date.
  change (firstn 4 ([a; b; c; e] ++ js "-" ++ md_text (InLeapYear lt) (DayWithinYear lt)))
    with [a; b; c; e].
  change (skipn 5 ([a; b; c; e] ++ js "-" ++ md_text (InLeapYear lt) (DayWithinYear lt)))
    with (md_text (InLeapYear lt) (DayWithinYear lt)).
  change (firstn 1 (skipn 4 ([a; b; c; e] ++ js "-" ++ md_text (InLeapYear lt) (DayWithinYear lt))))
    with [45%N].
  rewrite Hyear, Emd. cbn [N.eqb Pos.eqb andb].
  unfold MonthFromTime, DateFromTime. subst m dd.
  assert (date_in_month (InLeapYear lt) (DayWithinYear lt)
          <= Host.days_in_month (YearFromTime lt)
               (month_in_year (InLeapYear lt) (DayWithinYear lt) + 1)) as Hdim.
  { unfold Host.days_in_month.
    destruct (InLeapYear_cases lt) as [[El Ed]|[El Ed]]; rewrite El in *.
    - destruct (Host.is_leap (YearFromTime lt)) eqn:E.
      + apply leap_year_days in E. lia.
      + destruct (_ =? 2); [lia|]. destruct (_ || _); lia.
    - apply leap_year_days in Ed. rewrite Ed.
      destruct (_ =? 2); [lia|]. destruct (_ || _); lia. }
  rewrite !(proj2 (Z.leb_le _ _)) by assumption. reflexivity.
Qed.

Lemma formatDate_same_day t1 t2 :
  0 <= LocalTime t1 -> 0 <= LocalTime t2 ->
  Day (LocalTime t1) = Day (LocalTime t2) ->
  formatDate (Some t1) = formatDate (Some t2).
Proof.
  intros H1 H2 E. rewrite !formatDate_text.
  destruct (YearFromTime_spec _ H1) as (_ & A1).
  destruct (YearFromTime_spec _ H2) as (_ & A2).
  rewrite E in A1.
  pose proof (year_unique _ _ _ A1 A2) as Ey.
  unfold InLeapYear, DayWithinYear. rewrite Ey, E. reflexivity.
Qed.

Lemma formatDate_earlier_day t1 t2 :
  0 <= LocalTime t1 < TimeFromYear 10000 ->
  0 <= LocalTime t2 < TimeFromYear 10000 ->
  Day (LocalTime t1) < Day (LocalTime t2) ->
  Slot.str_ltb (formatDate (Some t1)) (formatDate (Some t2)) = true.
Proof.
  intros H1 H2 Hlt. rewrite !formatDate_text.
  set (l1 := LocalTime t1) in *. set (l2 := LocalTime t2) in *.
  pose proof (year_before_10000 l1 H1) as Hy1.
  pose proof (year_before_10000 l2 H2) as Hy2.
  destruct (YearFromTime_spec _ (proj1 H1)) as (_ & A1).
  destruct (YearFromTime_spec _ (proj1 H2)) as (_ & A2).
  pose proof (DayWithinYear_range l1 (proj1 H1)) as D1.
  pose proof (DayWithinYear_range l2 (proj1 H2)) as D2.
  destruct (Z.lt_trichotomy (YearFromTime l1) (YearFromTime l2)) as [Hy|[Hy|Hy]].
  - apply str_ltb_longer_prefix.
    + rewrite !year_text_length by assumption. reflexivity.
    + apply year_text_mono; lia.
  - assert (InLeapYear l1 = InLeapYear l2) as El
      by (unfold InLeapYear; rewrite Hy; reflexivity).
    rewrite Hy, El, !str_ltb_same_prefix.
    apply month_day_text_mono.
    + destruct (InLeapYear_cases l2) as [[-> _]|[-> _]]; auto.
    + lia.
    + unfold DayWithinYear. rewrite Hy. lia.
    + lia.
  - exfalso.
    pose proof (DayFromYear_le (YearFromTime l2 + 1) (YearFromTime l1) ltac:(lia)).
    lia.
Qed.

(** X8. On the same range the order of the texts as strings is the order of the
    local days, and two texts are equal exactly for dates of the same local
    day. *)
Theorem formatDate_order t1 t2 :
  0 <= LocalTime t1 < TimeFromYear 10000 ->
  0 <= LocalTime t2 < TimeFromYear 10000 ->
  (Slot.str_ltb (formatDate (Some t1)) (formatDate (Some t2)) = true
   <-> Day (LocalTime t1) < Day (LocalTime t2))
  /\ (formatDate (Some t1) = formatDate (Some t2)
      <-> Day (LocalTime t1) = Day (LocalTime t2)).
Proof.
  intros H1 H2.
  destruct (Z.lt_trichotomy (Day (LocalTime t1)) (Day (LocalTime t2)))
    as [Hlt|[Heq|Hgt]].
  - pose proof (formatDate_earlier_day t1 t2 H1 H2 Hlt) as E.
    split; split; intros H; try assumption; try lia.
    rewrite H, SlotFacts.str_ltb_irrefl in E. discriminate.
  - pose proof (formatDate_same_day t1 t2 (proj1 H1) (proj1 H2) Heq) as E.
    split; split; intros H; try assumption; try lia.
    rewrite E, SlotFacts.str_ltb_irrefl in H. discriminate.
  - pose proof (formatDate_earlier_day t2 t1 H2 H1 Hgt) as E.
    split; split; intros H; try lia.
    + apply SlotFacts.str_ltb_asym in E. congruence.
    + rewrite H, SlotFacts.str_ltb_irrefl in E. discriminate.
Qed.

End WithRuntime.

(** Noon of 2025-01-01 UTC, in a zone five and a half hours ahead. *)
Lemma formatDate_reads_back_witness :
  iso_date (formatDate (rt := Host.fixed_zone 19800000) (Some Examples.noon))
  = Some (2025, 1, 1).
Proof.
  destruct (formatDate_reads_back (rt := Host.fixed_zone 19800000)
              Examples.noon ltac:(vm_compute; split; [discriminate|reflexivity]))
    as (y & m & d & Hy & Hm & Hd & Hiso & _).
  vm_compute in Hy, Hd.
  injection Hy as <-. injection Hd as <-.
  assert (getMonth (rt := Host.fixed_zone 19800000) (Some Examples.noon)
          = Some 0) as E by (vm_compute; reflexivity).
  rewrite E in Hm.
  assert (m = 1) as -> by (injection Hm; lia).
  exact Hiso.
Defined.

(** The last evening of 2024 and the first morning of 2025, in UTC. *)
Lemma formatDate_order_witness :
  Slot.str_ltb
    (formatDate (rt := Host.utc) (Some (Examples.new_year - msPerHour)))
    (formatDate (rt := Host.utc) (Some Examples.noon)) = true.
Proof.
  apply (proj1 (formatDate_order (rt := Host.utc)
                  (Examples.new_year - msPerHour) Examples.noon
                  ltac:(vm_compute; split; [discriminate|reflexivity])
                  ltac:(vm_compute; split; [discriminate|reflexivity]))).
  vm_compute. reflexivity.
Defined.

End CalendarFacts.
